(** * client-request: a shallow embedding of [index.mjs]

    The library builds request options from a URL and a header map,
    encodes an optional body, hands the request to node's [http]/[https]
    transport and settles one promise from the events the transport
    emits.  This development embeds the ten functions of [index.mjs]
    and proves the properties of its specification about them.

    Conventions of the embedding.
    - A JavaScript string is represented by its UTF-8 encoding (a Rocq
      [string] is a sequence of bytes); strings are assumed well formed
      (no lone surrogates), so [Buffer.byteLength] is the length of the
      representation and [req.write(text)] puts exactly these bytes on
      the wire.
    - A Number that the library computes with is NaN or an integer, and
      stands for the JavaScript Number up to magnitude 2^53 - 1; any
      other value is given by the text [String] returns for it.
    - A header map is a finite map from names to strings, as
      [RequestHeaders = Record<string, string>] declares it.
    - The platform (the URL parser, [JSON.stringify], the [toString] of
      objects, the body parser of [@popovmp/request-parser] and the
      transport) is outside [index.mjs]: the functions it provides are
      section variables, the calls made on the transport are recorded
      in a log, which is cut at a call that throws, and the events it
      emits are the input of a step function. *)

From Stdlib Require Import ZArith String Ascii List Decimal DecimalString DecimalPos Lia.
From stdpp Require Import base option list gmap strings.

Local Open Scope string_scope.
Local Open Scope list_scope.
Local Open Scope Z_scope.

(** ** JavaScript values *)

Module Js.

(** The Numbers the library computes with (ports, lengths, durations):
    NaN and the integers.  [Num z] is the Number [z] itself as long as
    the magnitude of [z] is at most [MAX_SAFE_INTEGER]; above it a
    JavaScript Number rounds where [Z] does not, so a statement about
    [Num z] is a statement about the program for safe [z] only.  The
    Numbers that are not integers of this kind (fractions, larger
    magnitudes, the infinities) are values of [Other] below. *)
Inductive Number : Type :=
| NaN
| Num (z : Z).

(** A Buffer is its bytes. *)
Abbreviation Buffer := (list Byte.byte).

(** The values the library is handed as [data] or as a form value.
    Functions, symbols and BigInts are left out. *)
#[local] Set Warnings "-register-all".
Inductive Value : Type :=
| Undefined
| Null
| Boolean (b : bool)
| Number_ (n : Number)
| String_ (s : string)
| Buf (b : Buffer)
| Array (items : list Value)
| Object (props : list (string * Value)).

(** [typeof v], as the string JavaScript returns. *)
Definition typeof (v : Value) : string :=
  match v with
  | Undefined => "undefined"
  | Null => "object"
  | Boolean _ => "boolean"
  | Number_ _ => "number"
  | String_ _ => "string"
  | Buf _ | Array _ | Object _ => "object"
  end.

(** [Buffer.isBuffer(v)] *)
Definition isBuffer (v : Value) : bool :=
  match v with Buf _ => true | _ => false end.

(** ToBoolean: what [if (v)], [!v] and [&&] test. *)
Definition truthy (v : Value) : bool :=
  match v with
  | Undefined | Null => false
  | Boolean b => b
  | Number_ NaN => false
  | Number_ (Num z) => negb (Z.eqb z 0)
  | String_ s => negb (String.eqb s "")
  | Buf _ | Array _ | Object _ => true
  end.

Definition isNaN (n : Number) : bool :=
  match n with NaN => true | Num _ => false end.

Definition mul (a b : Number) : Number :=
  match a, b with
  | Num x, Num y => Num (x * y)
  | _, _ => NaN
  end.

(** [Number.MAX_SAFE_INTEGER], 2^53 - 1. *)
Definition MAX_SAFE_INTEGER : Z := 9007199254740991.

(** The Number is NaN or a safe integer. *)
Definition safe (n : Number) : bool :=
  match n with
  | NaN => true
  | Num z => Z.abs z <=? MAX_SAFE_INTEGER
  end.

(** [n.toString()] of NaN and of a safe integer: the decimal numeral.
    (JavaScript prints magnitudes from 1e21 on in exponent form; these
    are not safe integers.) *)
Definition Number_toString (n : Number) : string :=
  match n with
  | NaN => "NaN"
  | Num z => NilZero.string_of_int (Z.to_int z)
  end.

(** [Buffer.byteLength(s)]: the UTF-8 length of the text. *)
Definition byteLength (s : string) : Number :=
  Num (Z.of_nat (String.length s)).

(** [b.length] of a Buffer. *)
Definition Buffer_length (b : Buffer) : Number :=
  Num (Z.of_nat (List.length b)).

(** The values that have none of the shapes of [Value]: a Number that
    is neither NaN nor a safe integer (a fraction, a larger magnitude,
    an infinity), a BigInt, a Symbol, a function.  Each is given by the
    text [String(v)] returns for it, which is all the library asks of
    such a value. *)
Inductive Other : Type :=
| Inexact (text : string)
| BigInt (text : string)
| Symbol (text : string)
| Function (text : string).

Definition Other_typeof (o : Other) : string :=
  match o with
  | Inexact _ => "number"
  | BigInt _ => "bigint"
  | Symbol _ => "symbol"
  | Function _ => "function"
  end.

(** [String(v)] *)
Definition Other_String (o : Other) : string :=
  match o with
  | Inexact text | BigInt text | Symbol text | Function text => text
  end.

(** Any value: what [requestPost] and [requestPut] may be given as
    [data].  [requestJson] and [requestForm] are given a [Value]:
    [JSON.stringify] throws on a BigInt and the string conversion of a
    template literal throws on a Symbol. *)
Inductive Data : Type :=
| Plain (v : Value)
| Rest (o : Other).

(** The datum is none of null, undefined, a Buffer, an object, a
    string: a boolean, a Number, a BigInt, a Symbol or a function. *)
Definition other_shape (data : Data) : bool :=
  match data with
  | Plain (Boolean _) => true
  | Plain (Number_ n) => safe n
  | Plain _ => false
  | Rest _ => true
  end.

Definition code (c : ascii) : Z := Z.of_N (N_of_ascii c).

(** *** [parseInt(s)] with no radix argument (ECMA-262, 19.2.5) *)

(** Leading white space and line terminators, in UTF-8: TAB, LF, VT,
    FF, CR, SP, and the multi-byte U+00A0, U+1680, U+2000..U+200A,
    U+2028, U+2029, U+202F, U+205F, U+3000 and U+FEFF. *)
Fixpoint trimStart (s : string) : string :=
  match s with
  | String c1 rest1 =>
      let a := code c1 in
      if ((9 <=? a) && (a <=? 13) || (a =? 32)) then trimStart rest1
      else
        match rest1 with
        | String c2 rest2 =>
            let b := code c2 in
            if ((a =? 194) && (b =? 160)) then trimStart rest2
            else
              match rest2 with
              | String c3 rest3 =>
                  let c := code c3 in
                  if ((a =? 225) && (b =? 154) && (c =? 128)
                      || (a =? 226) && (b =? 128)
                         && ((128 <=? c) && (c <=? 138)
                             || (c =? 168) || (c =? 169) || (c =? 175))
                      || (a =? 226) && (b =? 129) && (c =? 159)
                      || (a =? 227) && (b =? 128) && (c =? 128)
                      || (a =? 239) && (b =? 187) && (c =? 191))
                  then trimStart rest3
                  else s
              | EmptyString => s
              end
        | EmptyString => s
        end
  | EmptyString => s
  end.

(** The value of [c] as a digit of the radix, if it is one. *)
Definition digit_of (radix : Z) (c : ascii) : option Z :=
  let a := code c in
  let v := if ((48 <=? a) && (a <=? 57)) then a - 48
           else if ((97 <=? a) && (a <=? 122)) then a - 87
           else if ((65 <=? a) && (a <=? 90)) then a - 55
           else 36 in
  if (v <? radix) then Some v else None.

(** The longest prefix of radix digits, read most significant first. *)
Fixpoint digits_value (radix : Z) (s : string) (acc : Z) : Z :=
  match s with
  | String c rest =>
      match digit_of radix c with
      | Some d => digits_value radix rest (acc * radix + d)
      | None => acc
      end
  | EmptyString => acc
  end.

Definition parse_digits (radix : Z) (s : string) : option Z :=
  match s with
  | String c _ =>
      match digit_of radix c with
      | Some _ => Some (digits_value radix s 0)
      | None => None
      end
  | EmptyString => None
  end.

Definition strip_sign (s : string) : Z * string :=
  match s with
  | String "-" rest => ((-1), rest)
  | String "+" rest => (1, rest)
  | _ => (1, s)
  end.

Definition strip_hex_prefix (s : string) : Z * string :=
  match s with
  | String "0" (String "x" rest) | String "0" (String "X" rest) => (16, rest)
  | _ => (10, s)
  end.

Definition parseInt (s : string) : Number :=
  let '(sign, unsigned) := strip_sign (trimStart s) in
  let '(radix, body) := strip_hex_prefix unsigned in
  match parse_digits radix body with
  | Some n => Num (sign * n)
  | None => NaN
  end.

(** *** [encodeURIComponent(s)] (ECMA-262, 19.2.6.4) *)

Definition hex_digit (n : Z) : ascii :=
  ascii_of_N (Z.to_N (if (n <? 10) then 48 + n else 55 + n)).

(** Letters, digits and [- _ . ! ~ * ' ( )] stay as they are. *)
Definition uri_unreserved (c : ascii) : bool :=
  let a := code c in
  ((48 <=? a) && (a <=? 57) || (65 <=? a) && (a <=? 90)
   || (97 <=? a) && (a <=? 122)
   || (a =? 45) || (a =? 95) || (a =? 46) || (a =? 33) || (a =? 126)
   || (a =? 42) || (a =? 39) || (a =? 40) || (a =? 41)).

Fixpoint encodeURIComponent (s : string) : string :=
  match s with
  | String c rest =>
      if uri_unreserved c then String c (encodeURIComponent rest)
      else String "%" (String (hex_digit (code c / 16))
                         (String (hex_digit (code c mod 16))
                            (encodeURIComponent rest)))
  | EmptyString => EmptyString
  end.

(** [parts.join(sep)] on an array of strings. *)
Definition join (sep : string) (parts : list string) : string :=
  String.concat sep parts.

(** The bytes of a text. *)
Definition utf8 (s : string) : Buffer := list_byte_of_string s.

End Js.

Coercion Js.Plain : Js.Value >-> Js.Data.

(** ** Data of the library *)

(** A value that is a string or [undefined]. *)
Definition optional (text : option string) : Js.Value :=
  match text with
  | Some s => Js.String_ s
  | None => Js.Undefined
  end.

(** [RequestHeaders]: header name to value, names as the caller wrote
    them.  The keys of [IncomingHttpHeaders] are lower case. *)
Abbreviation Headers := (gmap string string).

(** [h[name]]: the value, or [undefined] when there is no such entry. *)
Definition header (h : Headers) (name : string) : Js.Value :=
  optional (h !! name).

(** The properties of a [URL] object that [makeReqOptions] reads.
    [url_port] is a string, empty when the URL object has no port. *)
Record URL : Type := mkURL {
  url_protocol : string;
  url_hostname : string;
  url_port : string;
  url_pathname : string;
  url_search : string
}.

(** The default port of a protocol in the URL standard; the other
    protocols have none. *)
Definition default_port (protocol : string) : option Z :=
  if String.eqb protocol "http:" then Some 80
  else if String.eqb protocol "https:" then Some 443
  else if String.eqb protocol "ws:" then Some 80
  else if String.eqb protocol "wss:" then Some 443
  else if String.eqb protocol "ftp:" then Some 21
  else None.

(** The [port] property the URL standard gives a URL object, for the
    port written in the URL string ([None] when the string has none):
    the decimal numeral of the port, and the empty string when no port
    is written or when the written port is the default port of the
    protocol. *)
Definition port_property (protocol : string) (written : option Z) : string :=
  match written with
  | Some p =>
      if bool_decide (default_port protocol = Some p) then ""
      else Js.Number_toString (Js.Num p)
  | None => ""
  end.

Record RequestOptions : Type := mkRequestOptions {
  hostname : string;
  path : string;
  port : Js.Number;
  protocol : string;
  headers : Headers;
  method : string
}.

(** The properties of the [IncomingMessage] that [reqCallback] reads;
    [None] is a status the transport left undefined. *)
Record IncomingMessage : Type := mkIncomingMessage {
  res_headers : Headers;
  res_statusCode : option Z;
  res_statusMessage : option string
}.

(** The properties of the [ClientRequest] copied into the result. *)
Record ClientRequest : Type := mkClientRequest {
  req_host : string;
  req_method : string;
  req_path : string;
  req_protocol : string
}.

Record ClientRequestResponse : Type := mkClientRequestResponse {
  response : Js.Value;
  host : string;
  method_ : string;
  path_ : string;
  protocol_ : string;
  headers_ : Headers;
  statusCode : Z;
  statusMessage : string
}.

(** Errors, by where the object comes from: the [TypeError] that
    [new URL] throws on a string it cannot parse, an object the library
    makes with [new Error(message)], and the object an ["error"] event
    of the transport carries (named here by its message), and the
    exception a call on the transport ends with when it throws (named by
    its class).  An object made by [new Error] is fresh, so it is never
    one that came from the transport. *)
Inductive JsError : Type :=
| InvalidUrl
| Error_ (message : string)
| Emitted (err : string)
| Raised (name : string).

(** The error kinds of the specification. *)
Inductive ErrorKind : Type :=
| KInvalidUrl
| KTransportError
| KRequestTimedOut
| KMissingContentType
| KOther.

Definition kind_of (e : JsError) : ErrorKind :=
  match e with
  | InvalidUrl => KInvalidUrl
  | Emitted _ => KTransportError
  | Raised _ => KOther
  | Error_ message =>
      if String.eqb message "Request timed out" then KRequestTimedOut
      else if String.eqb message "Content-Type header is missing"
           then KMissingContentType
           else KOther
  end.

(** ** The transport, seen from the library *)

Inductive Transporter : Type := http | https.

(** The calls [index.mjs] makes on the transport module and on the
    request object it returns. *)
Inductive Call : Type :=
| request (transporter : Transporter) (options : RequestOptions)
| setTimeout (msecs : Js.Number)
| write (chunk : Js.Value)
| end_
| destroy.

(** What a call puts on the wire as body bytes. *)
Definition written (c : Call) : Js.Buffer :=
  match c with
  | write (Js.Buf b) => b
  | write (Js.String_ s) => Js.utf8 s
  | _ => []
  end.

Definition body_bytes (log : list Call) : Js.Buffer :=
  concat (map written log).

(** Calls that open a connection or send anything. *)
Definition network_activity (log : list Call) : bool :=
  existsb (fun c => match c with
                    | request _ _ | write _ | end_ => true
                    | _ => false
                    end) log.

(** ** Synchronous code: a log of transport calls and exceptions *)

Inductive Completion (A : Type) : Type :=
| Normal (a : A)
| Throw (e : JsError).
Arguments Normal {A} a.
Arguments Throw {A} e.

Definition M (A : Type) : Type := list Call -> Completion A * list Call.

#[global] Instance M_ret : MRet M := fun A a log => (Normal a, log).

#[global] Instance M_bind : MBind M := fun A B f m log =>
  match m log with
  | (Normal a, log') => f a log'
  | (Throw e, log') => (Throw e, log')
  end.

Definition throw {A : Type} (e : JsError) : M A := fun log => (Throw e, log).

Definition call (c : Call) : M unit := fun log => (Normal tt, log ++ [c]).

Definition when_ (b : bool) (m : M unit) : M unit :=
  if b then m else mret tt.

(** The outcome of the synchronous part of an operation, started with
    nothing sent. *)
Definition run {A : Type} (m : M A) : Completion A * list Call := m [].

(** A log lists the calls of the program in order, on the footing that
    each call returns.  A call on the transport may throw instead:
    [throws c] is the exception the call [c] ends with, if it does.
    The code after a call never depends on what the call returned, so
    on such a transport the calls made are those of the log up to the
    first that throws, that one included, and its exception leaves the
    promise executor. *)
Fixpoint performed (throws : Call -> option JsError) (log : list Call)
  : list Call * option JsError :=
  match log with
  | c :: rest =>
      match throws c with
      | Some e => ([c], Some e)
      | None => let '(made, thrown) := performed throws rest in (c :: made, thrown)
      end
  | [] => ([], None)
  end.

(** ** The promise and the events that settle it *)

Inductive Settled : Type :=
| Resolved (result : ClientRequestResponse)
| Rejected (reason : JsError).

(** One request in flight: the promise ([None] while pending), every
    response handed to [reqCallback] with the chunks pushed so far, the
    request object and the transport calls made up to now. *)
Record State : Type := mkState {
  promise : option Settled;
  incoming : list (IncomingMessage * list Js.Buffer);
  req : ClientRequest;
  log : list Call
}.

Inductive Event : Type :=
| req_error (err : string)
| req_timeout
| on_response (res : IncomingMessage)
| res_data (i : nat) (chunk : Js.Buffer)
| res_error (i : nat) (err : string)
| res_end (i : nat).

(** [resolve] and [reject] act on a pending promise only. *)
Definition settle (s : Settled) (st : State) : State :=
  match promise st with
  | None => mkState (Some s) (incoming st) (req st) (log st)
  | Some _ => st
  end.

Definition resolve (r : ClientRequestResponse) : State -> State :=
  settle (Resolved r).

Definition reject (e : JsError) : State -> State :=
  settle (Rejected e).

Definition called (c : Call) (st : State) : State :=
  mkState (promise st) (incoming st) (req st) (log st ++ [c]).

(** ** A reference platform

    Small executable stand-ins for the platform functions, used to run
    the embedding on concrete inputs.  The theorems below hold for
    every platform; nothing in them depends on this module. *)

Module Demo.

(** The longest prefix of [s] whose characters satisfy [p], and the rest. *)
Fixpoint span (p : ascii -> bool) (s : string) : string * string :=
  match s with
  | String c rest =>
      if p c then let '(a, b) := span p rest in (String c a, b)
      else (EmptyString, s)
  | EmptyString => (EmptyString, EmptyString)
  end.

Fixpoint all_chars (p : ascii -> bool) (s : string) : bool :=
  match s with
  | String c rest => p c && all_chars p rest
  | EmptyString => true
  end.

Definition is_lower (c : ascii) : bool :=
  (97 <=? Js.code c) && (Js.code c <=? 122).

Definition is_digit (c : ascii) : bool :=
  (48 <=? Js.code c) && (Js.code c <=? 57).

Definition is_host_char (c : ascii) : bool :=
  is_lower c || (Js.code c =? 46).

(** Printable ASCII other than space, the double quote, [#], [<], [>],
    [?], [\], [^], the back quote and the braces. *)
Definition is_path_char (c : ascii) : bool :=
  let a := Js.code c in
  (33 <=? a) && (a <=? 126)
  && negb ((a =? 34) || (a =? 35) || (a =? 60) || (a =? 62) || (a =? 63)
           || (a =? 92) || (a =? 94) || (a =? 96) || (a =? 123)
           || (a =? 124) || (a =? 125)).

Definition is_query_char (c : ascii) : bool :=
  is_path_char c && negb (Js.code c =? 39) || (Js.code c =? 63).

(** The scheme, the host name, the digits of the port and the rest of
    a URL of the shape [scheme://host[:port]rest], for a scheme of
    lower-case letters and a host name of lower-case letters and dots. *)
Definition authority (url : string) : option (string * string * string * string) :=
  let '(scheme, rest) := span is_lower url in
  match rest with
  | String ":" (String "/" (String "/" rest)) =>
      let '(hostname, rest) := span is_host_char rest in
      let '(port, rest) :=
        match rest with
        | String ":" rest => span is_digit rest
        | _ => (EmptyString, rest)
        end in
      if String.eqb hostname "" then None
      else Some (scheme, hostname, port, rest)
  | _ => None
  end.

(** The port written in the URL string, if one is. *)
Definition written_port (url : string) : option Z :=
  match authority url with
  | Some (_, _, port, _) =>
      if String.eqb port "" then None else Some (Js.digits_value 10 port 0)
  | None => None
  end.

(** URLs of the shape [scheme://host[:port][/path][?query]] with one of
    the schemes [http], [https], [ws], [wss] and [ftp], a host name of
    lower-case letters and dots and a plain ASCII path and query; this
    stand-in refuses anything else.  The default port of the scheme is
    dropped and an empty path becomes [/], as the URL standard has it. *)
Definition parseURL (url : string) : option URL :=
  match authority url with
  | Some (scheme, hostname, port, rest) =>
      let '(pathname, rest) :=
        match rest with
        | String "/" _ => span is_path_char rest
        | _ => ("/", rest)
        end in
      let search :=
        match rest with
        | String "?" EmptyString => Some EmptyString
        | String "?" query =>
            if all_chars is_query_char query then Some rest else None
        | EmptyString => Some EmptyString
        | _ => None
        end in
      let port_number := Js.digits_value 10 port 0 in
      match search, default_port (scheme +:+ ":") with
      | Some search, Some _ =>
          if 65535 <? port_number then None
          else
            Some {| url_protocol := scheme +:+ ":";
                    url_hostname := hostname;
                    url_port := port_property (scheme +:+ ":") (written_port url);
                    url_pathname := pathname;
                    url_search := search |}
      | _, _ => None
      end
  | None => None
  end.

(** The checks of node's transport that matter here: [req.setTimeout]
    throws a RangeError for a negative duration or NaN, and the
    [request] function of a module throws a TypeError for a protocol
    that is not the module's own.  Its other checks (header names and
    values, the characters of the path) are left out. *)
Definition throws (c : Call) : option JsError :=
  match c with
  | setTimeout Js.NaN => Some (Raised "RangeError")
  | setTimeout (Js.Num msecs) =>
      if msecs <? 0 then Some (Raised "RangeError") else None
  | request http options =>
      if String.eqb (protocol options) "http:" then None
      else Some (Raised "TypeError")
  | request https options =>
      if String.eqb (protocol options) "https:" then None
      else Some (Raised "TypeError")
  | _ => None
  end.

Definition dquote : string := String (ascii_of_N 34) EmptyString.

(** QuoteJSONString on the UTF-8 form of a text. *)
Fixpoint quote_chars (s : string) : string :=
  match s with
  | String c rest =>
      let a := Js.code c in
      (if a =? 34 then String "\" dquote
       else if a =? 92 then "\\"
       else if a =? 8 then "\b"
       else if a =? 9 then "\t"
       else if a =? 10 then "\n"
       else if a =? 12 then "\f"
       else if a =? 13 then "\r"
       else if a <? 32 then
         "\u00" +:+ String (Js.hex_digit (a / 16))
                      (String (if a mod 16 <? 10 then Js.hex_digit (a mod 16)
                               else ascii_of_N (Z.to_N (87 + a mod 16)))
                         EmptyString)
       else String c EmptyString) +:+ quote_chars rest
  | EmptyString => EmptyString
  end.

Definition quote (s : string) : string := dquote +:+ quote_chars s +:+ dquote.

(** SerializeJSONProperty: [None] stands for [undefined]. *)
Fixpoint serialize (v : Js.Value) : option string :=
  match v with
  | Js.Undefined => None
  | Js.Null => Some "null"
  | Js.Boolean true => Some "true"
  | Js.Boolean false => Some "false"
  | Js.Number_ Js.NaN => Some "null"
  | Js.Number_ n => Some (Js.Number_toString n)
  | Js.String_ s => Some (quote s)
  | Js.Buf b =>
      Some ("{" +:+ quote "type" +:+ ":" +:+ quote "Buffer" +:+ ","
            +:+ quote "data" +:+ ":["
            +:+ Js.join "," (map (fun x => Js.Number_toString
                                            (Js.Num (Z.of_N (Byte.to_N x)))) b)
            +:+ "]}")
  | Js.Array items =>
      Some ("[" +:+ Js.join "," (map (fun item => default "null" (serialize item)) items)
            +:+ "]")
  | Js.Object props =>
      Some ("{" +:+ Js.join ","
                      (omap (fun '(name, value) =>
                               match serialize value with
                               | Some text => Some (quote name +:+ ":" +:+ text)
                               | None => None
                               end) props)
            +:+ "}")
  end.

Definition JSON_stringify (v : Js.Value) : option string := serialize v.

(** [toString()] of arrays of primitives, plain objects and Buffers
    that hold well-formed UTF-8. *)
Definition Object_toString (v : Js.Value) : string :=
  match v with
  | Js.Array items =>
      Js.join "," (map (fun item =>
                          match item with
                          | Js.Undefined | Js.Null => ""
                          | Js.Boolean true => "true"
                          | Js.Boolean false => "false"
                          | Js.Number_ n => Js.Number_toString n
                          | Js.String_ s => s
                          | _ => "[object Object]"
                          end) items)
  | Js.Buf b => string_of_list_byte b
  | _ => "[object Object]"
  end.

(** A body parser that decodes text and leaves anything else as bytes. *)
Definition parseRequestBody (body : Js.Buffer) (contentType : string)
  : option Js.Value :=
  if String.prefix "text/" contentType then Some (Js.String_ (string_of_list_byte body))
  else Some (Js.Buf body).

End Demo.

(** ** Sample inputs *)

Definition localhost : ClientRequest :=
  {| req_host := "localhost"; req_method := "POST";
     req_path := "/upload"; req_protocol := "http:" |}.

Definition foo : Js.Buffer := [Byte.x66; Byte.x6f; Byte.x6f].

(** A response that declares plain text and leaves its status undefined. *)
Definition text_response : IncomingMessage :=
  mkIncomingMessage {["content-type" := "text/plain"]} None None.

(** ** The functions of [index.mjs] *)

Section ClientRequest.

(** [new URL(url)]: the URL object, or [None] when the constructor
    throws its [TypeError]. *)
Variable parseURL : string -> option URL.

(** [JSON.stringify(value)]: a string, or [None] for [undefined]. *)
Variable JSON_stringify : Js.Value -> option string.

(** The [toString()] of a Buffer, an array or another object. *)
Variable Object_toString : Js.Value -> string.

(** [parseRequestBody(body, contentType)] of [@popovmp/request-parser];
    [None] when it throws. *)
Variable parseRequestBody : Js.Buffer -> string -> option Js.Value.

(** ToString: what [String(v)] returns, and the conversion that a
    template literal and [encodeURIComponent] apply to their argument. *)
Definition ToString (v : Js.Value) : string :=
  match v with
  | Js.Undefined => "undefined"
  | Js.Null => "null"
  | Js.Boolean true => "true"
  | Js.Boolean false => "false"
  | Js.Number_ n => Js.Number_toString n
  | Js.String_ s => s
  | Js.Buf _ | Js.Array _ | Js.Object _ => Object_toString v
  end.

Definition new_URL (url : string) : M URL :=
  match parseURL url with
  | Some urlObj => mret urlObj
  | None => throw InvalidUrl
  end.

Definition makeReqOptions (url : string) (headers : Headers) (method : string)
  : M RequestOptions :=
  urlObj ← new_URL url;
  let port :=
    if Js.truthy (Js.String_ (url_port urlObj)) then Js.parseInt (url_port urlObj)
    else if String.eqb (url_protocol urlObj) "https:" then Js.Num 443
         else Js.Num 80 in
  mret {| hostname := url_hostname urlObj;
          path := url_pathname urlObj +:+ url_search urlObj;
          protocol := url_protocol urlObj;
          port := port;
          headers := headers;
          method := method |}.

(** [options.headers[name] = value] *)
Definition set_header (name value : string) (options : RequestOptions)
  : RequestOptions :=
  {| hostname := hostname options;
     path := path options;
     protocol := protocol options;
     port := port options;
     headers := <[name := value]> (headers options);
     method := method options |}.

(** The synchronous part of [sendRequest]: the body of the promise
    executor up to [req.end()], as the calls it makes in order when each
    of them returns; [performed] above cuts the log at a call that
    throws.  The two listeners it registers are [on_event] below.
    [options.headers] is an object, hence truthy, and its entries are
    strings, so the guard of the time-out block holds exactly when the
    entry exists. *)
Definition sendRequest (options : RequestOptions) (postData : Js.Value) : M unit :=
  let transporter :=
    if String.eqb (protocol options) "https:" then https else http in
  call (request transporter options);;
  match headers options !! "Request-Timeout" with
  | Some timeoutText =>
      let timeOut := Js.parseInt timeoutText in
      when_ (negb (Js.isNaN timeOut))
        (call (setTimeout (Js.mul timeOut (Js.Num 1000))))
  | None => mret tt
  end;;
  when_ (Js.truthy postData) (call (write postData));;
  call end_.

Definition sendPost (options : RequestOptions) (data : Js.Value)
    (contentType : string) : M unit :=
  let options :=
    match data with
    | Js.Buf b =>
        set_header "Content-Length" (Js.Number_toString (Js.Buffer_length b)) options
    | Js.String_ s =>
        set_header "Content-Length" (Js.Number_toString (Js.byteLength s)) options
    | _ => set_header "Content-Length" "0" options
    end in
  let options :=
    if Js.truthy (Js.String_ contentType)
       && negb (Js.truthy (header (headers options) "Content-Type"))
    then set_header "Content-Type" contentType options
    else options in
  sendRequest options data.

(** [String(data)] *)
Definition String_of (data : Js.Data) : string :=
  match data with
  | Js.Plain v => ToString v
  | Js.Rest o => Js.Other_String o
  end.

(** For a value of [Other] none of the four tests of [postPut] holds:
    it is not null or undefined, not a Buffer, and its [typeof] is
    neither ["object"] nor ["string"]. *)
Definition postPut (method url : string) (data : Js.Data) (headers : Headers)
  : M unit :=
  options ← makeReqOptions url headers method;
  match data with
  | Js.Plain Js.Null | Js.Plain Js.Undefined => sendPost options Js.Null ""
  | Js.Plain v =>
      if Js.isBuffer v then
        sendPost options v "application/octet-stream"
      else if String.eqb (Js.typeof v) "object" then
        sendPost options (optional (JSON_stringify v)) "application/json;charset=utf-8"
      else if String.eqb (Js.typeof v) "string" then
        sendPost options v "text/plain;charset=utf-8"
      else
        sendPost options (Js.String_ (String_of data)) "text/plain;charset=utf-8"
  | Js.Rest _ =>
      sendPost options (Js.String_ (String_of data)) "text/plain;charset=utf-8"
  end.

Definition requestHead (url : string) (headers : Headers) : M unit :=
  options ← makeReqOptions url headers "HEAD";
  sendRequest options Js.Null.

Definition requestGet (url : string) (headers : Headers) : M unit :=
  options ← makeReqOptions url headers "GET";
  sendRequest options Js.Null.

Definition requestPost (url : string) (data : Js.Data) (headers : Headers)
  : M unit :=
  postPut "POST" url data headers.

Definition requestPut (url : string) (data : Js.Data) (headers : Headers)
  : M unit :=
  postPut "PUT" url data headers.

Definition requestJson (url : string) (data : Js.Value) (headers : Headers)
  : M unit :=
  options ← makeReqOptions url headers "POST";
  let postText := optional (JSON_stringify data) in
  sendPost options postText "application/json;charset=utf-8".

(** A form is given by its own enumerable properties, in the order
    [Object.keys] lists them. *)
Definition Object_keys (formData : list (string * Js.Value)) : list string :=
  map fst formData.

(** [formData[param]] *)
Fixpoint get (formData : list (string * Js.Value)) (param : string) : Js.Value :=
  match formData with
  | (name, value) :: rest =>
      if String.eqb name param then value else get rest param
  | [] => Js.Undefined
  end.

Definition form_param (formData : list (string * Js.Value)) (param : string)
  : string :=
  Js.encodeURIComponent param +:+ "=" +:+ Js.encodeURIComponent (ToString (get formData param)).

Definition requestForm (url : string) (formData : list (string * Js.Value))
    (headers : Headers) : M unit :=
  options ← makeReqOptions url headers "POST";
  let params := map (form_param formData) (Object_keys formData) in
  let queryText := Js.join "&" params in
  let formHeader := "application/x-www-form-urlencoded" in
  sendPost options (Js.String_ queryText) formHeader.

(** The listeners of [sendRequest]: on the request for ["error"] and
    ["timeout"], [reqCallback] for the response, and on each response
    for ["data"], ["error"] and ["end"]. *)
Definition on_event (st : State) (ev : Event) : State :=
  match ev with
  | req_error err => reject (Emitted err) st
  | req_timeout => reject (Error_ "Request timed out") (called destroy st)
  | on_response res =>
      mkState (promise st) (incoming st ++ [(res, [])]) (req st) (log st)
  | res_data i chunk =>
      match incoming st !! i with
      | Some (res, chunks) =>
          mkState (promise st) (<[i := (res, chunks ++ [chunk])]> (incoming st))
                  (req st) (log st)
      | None => st
      end
  | res_error i err => reject (Emitted err) st
  | res_end i =>
      match incoming st !! i with
      | Some (res, chunks) =>
          match res_headers res !! "content-type" with
          | Some contentType =>
              if negb (Js.truthy (Js.String_ contentType)) then
                reject (Error_ "Content-Type header is missing") st
              else
                match parseRequestBody (concat chunks) contentType with
                | Some body =>
                    resolve {| response := body;
                               host := req_host (req st);
                               method_ := req_method (req st);
                               path_ := req_path (req st);
                               protocol_ := req_protocol (req st);
                               headers_ := res_headers res;
                               statusCode := default 0 (res_statusCode res);
                               statusMessage := default "" (res_statusMessage res) |} st
                | None => st
                end
          | None => reject (Error_ "Content-Type header is missing") st
          end
      | None => st
      end
  end.

Definition on_events (st : State) (evs : list Event) : State :=
  fold_left on_event evs st.

(** An [async] operation: an exception of the synchronous part rejects
    the promise, otherwise the request is in flight and the promise is
    pending. *)
Definition launch (req : ClientRequest) (op : M unit) : State :=
  match run op with
  | (Normal _, log) => mkState None [] req log
  | (Throw e, log) => mkState (Some (Rejected e)) [] req log
  end.

(** An [async] operation on a transport whose calls may throw: an
    exception of a call leaves the executor of the promise, which
    rejects the promise with it; the calls after it are not made and the
    listeners after it are not registered. *)
Definition launch_on (throws : Call -> option JsError) (req : ClientRequest)
    (op : M unit) : State :=
  match run op with
  | (Normal _, log) =>
      match performed throws log with
      | (made, Some e) => mkState (Some (Rejected e)) [] req made
      | (made, None) => mkState None [] req made
      end
  | (Throw e, log) => mkState (Some (Rejected e)) [] req log
  end.

(** ** Reading a log *)

(** The options of the request the log opens with. *)
Definition requested (log : list Call) : option RequestOptions :=
  match log with
  | request _ options :: _ => Some options
  | _ => None
  end.

Definition is_write (c : Call) : bool :=
  match c with write _ => true | _ => false end.

(** The [req.setTimeout] call of [sendRequest], if it makes one. *)
Definition armed (options : RequestOptions) : list Call :=
  match headers options !! "Request-Timeout" with
  | Some timeoutText =>
      match Js.parseInt timeoutText with
      | Js.Num n => [setTimeout (Js.Num (n * 1000))]
      | Js.NaN => []
      end
  | None => []
  end.

(** The [req.write] call of [sendRequest], if it makes one. *)
Definition wrote (postData : Js.Value) : list Call :=
  if Js.truthy postData then [write postData] else [].

Definition transporter_of (options : RequestOptions) : Transporter :=
  if String.eqb (protocol options) "https:" then https else http.

(** The request line of [makeReqOptions] for a parsed URL. *)
Definition descriptor (urlObj : URL) (headers : Headers) (method : string)
  : RequestOptions :=
  {| hostname := url_hostname urlObj;
     path := url_pathname urlObj +:+ url_search urlObj;
     protocol := url_protocol urlObj;
     port := if String.eqb (url_port urlObj) "" then
               if String.eqb (url_protocol urlObj) "https:" then Js.Num 443
               else Js.Num 80
             else Js.parseInt (url_port urlObj);
     headers := headers;
     method := method |}.

(** ** The body encoder, as a function on header maps *)

(** The bytes [req.write(data)] puts on the wire for a payload. *)
Definition payload_bytes (data : Js.Value) : Js.Buffer :=
  match data with
  | Js.Buf b => b
  | Js.String_ s => Js.utf8 s
  | _ => []
  end.

(** The value [sendPost] stores under [Content-Length]. *)
Definition content_length (data : Js.Value) : string :=
  match data with
  | Js.Buf b => Js.Number_toString (Js.Buffer_length b)
  | Js.String_ s => Js.Number_toString (Js.byteLength s)
  | _ => "0"
  end.

(** The header map [sendPost] leaves behind. *)
Definition encoded_headers (h : Headers) (data : Js.Value) (contentType : string)
  : Headers :=
  let h1 := <["Content-Length" := content_length data]> h in
  if Js.truthy (Js.String_ contentType)
     && negb (Js.truthy (header h1 "Content-Type"))
  then <["Content-Type" := contentType]> h1
  else h1.

Definition with_headers (h : Headers) (options : RequestOptions) : RequestOptions :=
  {| hostname := hostname options;
     path := path options;
     protocol := protocol options;
     port := port options;
     headers := h;
     method := method options |}.

(** The log of a request whose body was encoded by [sendPost]. *)
Definition encoded_log (options : RequestOptions) (data : Js.Value)
    (contentType : string) : list Call :=
  request (transporter_of options)
          (with_headers (encoded_headers (headers options) data contentType) options)
    :: armed options ++ wrote data ++ [end_].

(** The choice [postPut] makes: the payload handed to [sendPost] and the
    content type that goes with it. *)
Definition postPut_choice (data : Js.Value) : Js.Value * string :=
  match data with
  | Js.Undefined | Js.Null => (Js.Null, "")
  | Js.Buf _ => (data, "application/octet-stream")
  | Js.Array _ | Js.Object _ =>
      (optional (JSON_stringify data), "application/json;charset=utf-8")
  | Js.String_ _ => (data, "text/plain;charset=utf-8")
  | Js.Boolean _ | Js.Number_ _ =>
      (Js.String_ (ToString data), "text/plain;charset=utf-8")
  end.

(** The payload of a form: the pairs as written, joined. *)
Definition form_text (formData : list (string * Js.Value)) : string :=
  Js.join "&"
    (map (fun '(name, value) =>
            Js.encodeURIComponent name +:+ "="
              +:+ Js.encodeURIComponent (ToString value)) formData).

(** ** What an operation hands to the transport *)

(** The synchronous part ends without an exception. *)
Definition completes (op : M unit) : Prop := fst (run op) = Normal tt.

(** The options of the request the operation opens. *)
Definition dispatched (op : M unit) : option RequestOptions :=
  requested (snd (run op)).

(** A header of that request. *)
Definition sent_header (op : M unit) (name : string) : option string :=
  options ← dispatched op; headers options !! name.

(** The body bytes the operation writes. *)
Definition sent_bytes (op : M unit) : Js.Buffer := body_bytes (snd (run op)).

(** The operation sends [payload] as its body, under [contentType]. *)
Definition encodes_as (op : M unit) (payload : Js.Buffer)
    (contentType : option string) : Prop :=
  completes op /\ sent_bytes op = payload
  /\ sent_header op "Content-Type" = contentType.

(** ** Decimal numerals *)

(** The number a decimal numeral adds to an accumulator. *)
Fixpoint uint_value (d : uint) (acc : Z) : Z :=
  match d with
  | Nil => acc
  | D0 d => uint_value d (acc * 10 + 0)
  | D1 d => uint_value d (acc * 10 + 1)
  | D2 d => uint_value d (acc * 10 + 2)
  | D3 d => uint_value d (acc * 10 + 3)
  | D4 d => uint_value d (acc * 10 + 4)
  | D5 d => uint_value d (acc * 10 + 5)
  | D6 d => uint_value d (acc * 10 + 6)
  | D7 d => uint_value d (acc * 10 + 7)
  | D8 d => uint_value d (acc * 10 + 8)
  | D9 d => uint_value d (acc * 10 + 9)
  end.

(** ** Responses without a content type *)

(** A response without a [content-type] header. *)
Definition lacks_content_type (res : IncomingMessage) : Prop :=
  res_headers res !! "content-type" = None.

(** The events of a transport whose responses all lack the header. *)
Definition without_content_type (ev : Event) : Prop :=
  match ev with
  | on_response res => lacks_content_type res
  | _ => True
  end.

(** The promise has not been resolved with a result. *)
Definition unresolved (st : State) : Prop :=
  forall result, promise st <> Some (Resolved result).

(** ** More readers of logs, events and texts *)

Definition is_request (c : Call) : bool :=
  match c with request _ _ => true | _ => false end.

Definition is_setTimeout (c : Call) : bool :=
  match c with setTimeout _ => true | _ => false end.

(** The transport module the log opens its request on. *)
Definition transporter_used (log : list Call) : option Transporter :=
  match log with
  | request transporter _ :: _ => Some transporter
  | _ => None
  end.

(** The number of time-out events in a sequence. *)
Fixpoint timeouts (evs : list Event) : nat :=
  match evs with
  | req_timeout :: rest => S (timeouts rest)
  | _ :: rest => timeouts rest
  | [] => O
  end.

(** The event is the end of a response. *)
Definition ends_response (ev : Event) : bool :=
  match ev with res_end _ => true | _ => false end.

(** The number of times a character occurs in a text. *)
Fixpoint count_char (c : ascii) (s : string) : nat :=
  match s with
  | String c' rest =>
      if Ascii.eqb c c' then S (count_char c rest) else count_char c rest
  | EmptyString => O
  end.

(** The result [reqCallback] builds for a response and a decoded body. *)
Definition result_of (req : ClientRequest) (res : IncomingMessage)
    (body : Js.Value) : ClientRequestResponse :=
  {| response := body;
     host := req_host req;
     method_ := req_method req;
     path_ := req_path req;
     protocol_ := req_protocol req;
     headers_ := res_headers res;
     statusCode := default 0 (res_statusCode res);
     statusMessage := default "" (res_statusMessage res) |}.

(** The events of one response that arrives whole: the response, its
    chunks in order, its end. *)
Definition whole_response (i : nat) (res : IncomingMessage)
    (chunks : list Js.Buffer) : list Event :=
  on_response res :: map (res_data i) chunks ++ [res_end i].


(** A result that is built from a response of the event sequence: the
    response has a non-empty content type and the body is what the
    parser returned for some bytes under that content type. *)
Definition built_from (req : ClientRequest) (evs : list Event)
    (result : ClientRequestResponse) : Prop :=
  exists res contentType bytes body,
    In (on_response res) evs
    /\ res_headers res !! "content-type" = Some contentType
    /\ contentType <> ""
    /\ parseRequestBody bytes contentType = Some body
    /\ result = result_of req res body.

(** What holds of a request once the events [seen] have been handled. *)
Definition results_built (request : ClientRequest) (seen : list Event)
    (st : State) : Prop :=
  req st = request
  /\ Forall (fun entry => In (on_response (fst entry)) seen) (incoming st)
  /\ forall result, promise st = Some (Resolved result) ->
                    built_from request seen result.

(** ** The built-in functions on examples *)

Example parseInt_decimal : Js.parseInt "15" = Js.Num 15.
Proof. reflexivity. Qed.

Example parseInt_prefix : Js.parseInt "  -12px" = Js.Num (-12).
Proof. reflexivity. Qed.

Example parseInt_hex : Js.parseInt "0x1F" = Js.Num 31.
Proof. reflexivity. Qed.

Example parseInt_fraction : Js.parseInt "1.5" = Js.Num 1.
Proof. reflexivity. Qed.

Example parseInt_word : Js.parseInt "soon" = Js.NaN.
Proof. reflexivity. Qed.

Example parseInt_empty : Js.parseInt "" = Js.NaN.
Proof. reflexivity. Qed.

Example encodeURIComponent_reserved :
  Js.encodeURIComponent "a b&c=d/e" = "a%20b%26c%3Dd%2Fe".
Proof. reflexivity. Qed.

Example Number_toString_42 : Js.Number_toString (Js.Num 42) = "42".
Proof. reflexivity. Qed.

(** ** Lemmas on the synchronous part *)

Lemma run_sendRequest (options : RequestOptions) (postData : Js.Value) :
  run (sendRequest options postData)
  = (Normal tt,
     request (transporter_of options) options
       :: armed options ++ wrote postData ++ [end_]).
Proof.
  unfold run, sendRequest, armed, wrote, transporter_of.
  unfold mbind, M_bind, call, when_; simpl.
  destruct (headers options !! "Request-Timeout") as [timeoutText|]; simpl.
  - destruct (Js.parseInt timeoutText) as [|n]; simpl;
      destruct (Js.truthy postData); reflexivity.
  - destruct (Js.truthy postData); reflexivity.
Qed.

Lemma run_makeReqOptions (url : string) (headers : Headers) (method : string)
    (urlObj : URL) :
  parseURL url = Some urlObj ->
  run (makeReqOptions url headers method)
  = (Normal (descriptor urlObj headers method), []).
Proof.
  intros Hparse. unfold run, makeReqOptions, new_URL, descriptor.
  unfold mbind, M_bind. rewrite Hparse. simpl.
  destruct (String.eqb (url_port urlObj) ""); reflexivity.
Qed.

Lemma run_makeReqOptions_invalid (url : string) (headers : Headers)
    (method : string) :
  parseURL url = None ->
  run (makeReqOptions url headers method) = (Throw InvalidUrl, []).
Proof.
  intros Hparse. unfold run, makeReqOptions, new_URL, mbind, M_bind.
  rewrite Hparse. reflexivity.
Qed.

Lemma armed_cases (options : RequestOptions) :
  armed options = [] \/ exists n, armed options = [setTimeout (Js.Num n)].
Proof.
  unfold armed.
  destruct (headers options !! "Request-Timeout") as [timeoutText|]; [|by left].
  destruct (Js.parseInt timeoutText) as [|n]; [by left|].
  right. by exists (n * 1000).
Qed.

Lemma wrote_cases (data : Js.Value) :
  wrote data = [] \/ wrote data = [write data].
Proof. unfold wrote. destruct (Js.truthy data); [by right|by left]. Qed.

Lemma armed_descriptor (urlObj : URL) (headers : Headers) (verb : string) :
  armed (descriptor urlObj headers verb)
  = match headers !! "Request-Timeout" with
    | Some timeoutText =>
        match Js.parseInt timeoutText with
        | Js.Num n => [setTimeout (Js.Num (n * 1000))]
        | Js.NaN => []
        end
    | None => []
    end.
Proof. reflexivity. Qed.

(** On a transport that accepts every call of a log, all are made. *)
Lemma performed_accepted (throws : Call -> option JsError) (log : list Call) :
  Forall (fun c => throws c = None) log -> performed throws log = (log, None).
Proof.
  induction 1 as [|c rest Hc _ IH]; [reflexivity|].
  simpl. rewrite Hc, IH. reflexivity.
Qed.

(** Whatever the transport, the calls made are the first calls of the
    log, and all of them when none throws. *)
Lemma performed_prefix (throws : Call -> option JsError) (log : list Call) :
  fst (performed throws log) `prefix_of` log
  /\ (snd (performed throws log) = None -> fst (performed throws log) = log).
Proof.
  induction log as [|c rest [IHprefix IHall]]; [split; [done|reflexivity]|].
  simpl. destruct (throws c) as [e|].
  - split; [|discriminate]. by exists rest.
  - destruct (performed throws rest) as [made thrown]. simpl in *. split.
    + by apply prefix_cons.
    + intros Hnone. by rewrite IHall.
Qed.

Lemma armed_with_headers (h : Headers) (options : RequestOptions) :
  h !! "Request-Timeout" = headers options !! "Request-Timeout" ->
  armed (with_headers h options) = armed options.
Proof. intros Heq. unfold armed. simpl. rewrite Heq. reflexivity. Qed.

Lemma encoded_headers_timeout (h : Headers) (data : Js.Value) (contentType : string) :
  encoded_headers h data contentType !! "Request-Timeout" = h !! "Request-Timeout".
Proof.
  unfold encoded_headers.
  destruct (Js.truthy (Js.String_ contentType) && _);
    repeat (rewrite lookup_insert_ne by discriminate); reflexivity.
Qed.

Lemma run_sendPost (options : RequestOptions) (data : Js.Value)
    (contentType : string) :
  run (sendPost options data contentType)
  = (Normal tt, encoded_log options data contentType).
Proof.
  unfold encoded_log.
  rewrite <- (armed_with_headers
                (encoded_headers (headers options) data contentType) options)
    by apply encoded_headers_timeout.
  change (transporter_of options)
    with (transporter_of
            (with_headers (encoded_headers (headers options) data contentType)
               options)).
  rewrite <- run_sendRequest.
  unfold sendPost, encoded_headers, with_headers, set_header, content_length.
  destruct data; simpl;
    match goal with
    | |- context [if ?c then _ else _] => destruct c
    end; reflexivity.
Qed.

Lemma body_bytes_armed (options : RequestOptions) : body_bytes (armed options) = [].
Proof.
  unfold armed.
  destruct (headers options !! "Request-Timeout") as [timeoutText|]; [|reflexivity].
  destruct (Js.parseInt timeoutText); reflexivity.
Qed.

Lemma body_bytes_app (l1 l2 : list Call) :
  body_bytes (l1 ++ l2) = body_bytes l1 ++ body_bytes l2.
Proof. unfold body_bytes. rewrite map_app, concat_app. reflexivity. Qed.

Lemma body_bytes_wrote (data : Js.Value) :
  body_bytes (wrote data) = payload_bytes data.
Proof.
  unfold wrote. destruct data as [| |[]|[|z]|s|b|items|props]; try reflexivity.
  - simpl. destruct (Z.eqb z 0); reflexivity.
  - destruct s; [reflexivity|]. simpl. unfold body_bytes. simpl.
    rewrite app_nil_r. reflexivity.
  - simpl. unfold body_bytes. simpl. rewrite app_nil_r. reflexivity.
Qed.

Lemma body_bytes_encoded_log (options : RequestOptions) (data : Js.Value)
    (contentType : string) :
  body_bytes (encoded_log options data contentType) = payload_bytes data.
Proof.
  unfold encoded_log.
  change (request ?t ?o :: ?l) with ([request t o] ++ l).
  rewrite !body_bytes_app, body_bytes_armed, body_bytes_wrote.
  simpl. rewrite app_nil_r. reflexivity.
Qed.

Lemma length_utf8 (s : string) : List.length (Js.utf8 s) = String.length s.
Proof.
  unfold Js.utf8. induction s as [|c s IH]; [reflexivity|].
  simpl. f_equal. exact IH.
Qed.

(** [Content-Length] is the decimal length of the bytes of the payload. *)
Lemma content_length_payload (data : Js.Value) :
  content_length data
  = Js.Number_toString (Js.Num (Z.of_nat (List.length (payload_bytes data)))).
Proof.
  destruct data; try reflexivity.
  unfold content_length, payload_bytes, Js.byteLength.
  rewrite length_utf8. reflexivity.
Qed.

Lemma encoded_headers_content_length (h : Headers) (data : Js.Value)
    (contentType : string) :
  encoded_headers h data contentType !! "Content-Length"
  = Some (content_length data).
Proof.
  unfold encoded_headers.
  destruct (Js.truthy (Js.String_ contentType) && _).
  - rewrite lookup_insert_ne by discriminate. apply lookup_insert_eq.
  - apply lookup_insert_eq.
Qed.

Lemma run_postPut (method url : string) (data : Js.Value) (headers : Headers)
    (urlObj : URL) :
  parseURL url = Some urlObj ->
  run (postPut method url data headers)
  = (Normal tt,
     encoded_log (descriptor urlObj headers method)
       (fst (postPut_choice data)) (snd (postPut_choice data))).
Proof.
  intros Hparse. rewrite <- run_sendPost.
  pose proof (run_makeReqOptions url headers method urlObj Hparse) as Hopt.
  unfold run, postPut, mbind, M_bind in *. rewrite Hopt.
  destruct data; reflexivity.
Qed.

Lemma run_postPut_other (method url : string) (data : Js.Data)
    (headers : Headers) (urlObj : URL) :
  parseURL url = Some urlObj ->
  Js.other_shape data = true ->
  run (postPut method url data headers)
  = (Normal tt,
     encoded_log (descriptor urlObj headers method)
       (Js.String_ (String_of data)) "text/plain;charset=utf-8").
Proof.
  intros Hparse Hshape. rewrite <- run_sendPost.
  pose proof (run_makeReqOptions url headers method urlObj Hparse) as Hopt.
  unfold run, postPut, mbind, M_bind in *. rewrite Hopt.
  destruct data as [v|o]; [|reflexivity].
  destruct v; try discriminate Hshape; reflexivity.
Qed.

Lemma run_requestJson (url : string) (data : Js.Value) (headers : Headers)
    (urlObj : URL) :
  parseURL url = Some urlObj ->
  run (requestJson url data headers)
  = (Normal tt,
     encoded_log (descriptor urlObj headers "POST")
       (optional (JSON_stringify data)) "application/json;charset=utf-8").
Proof.
  intros Hparse. rewrite <- run_sendPost.
  pose proof (run_makeReqOptions url headers "POST" urlObj Hparse) as Hopt.
  unfold run, requestJson, mbind, M_bind in *. rewrite Hopt. reflexivity.
Qed.

Lemma run_requestForm (url : string) (formData : list (string * Js.Value))
    (headers : Headers) (urlObj : URL) :
  parseURL url = Some urlObj ->
  run (requestForm url formData headers)
  = (Normal tt,
     encoded_log (descriptor urlObj headers "POST")
       (Js.String_ (Js.join "&" (map (form_param formData) (Object_keys formData))))
       "application/x-www-form-urlencoded").
Proof.
  intros Hparse. rewrite <- run_sendPost.
  pose proof (run_makeReqOptions url headers "POST" urlObj Hparse) as Hopt.
  unfold run, requestForm, mbind, M_bind in *. rewrite Hopt. reflexivity.
Qed.

(** ** Lemmas on the body encoder *)

Lemma encoded_completes (op : M unit) (options : RequestOptions)
    (data : Js.Value) (contentType : string) :
  run op = (Normal tt, encoded_log options data contentType) ->
  completes op.
Proof. unfold completes. intros ->. reflexivity. Qed.

Lemma encoded_sent_bytes (op : M unit) (options : RequestOptions)
    (data : Js.Value) (contentType : string) :
  run op = (Normal tt, encoded_log options data contentType) ->
  sent_bytes op = payload_bytes data.
Proof. unfold sent_bytes. intros ->. apply body_bytes_encoded_log. Qed.

Lemma encoded_sent_header (op : M unit) (options : RequestOptions)
    (data : Js.Value) (contentType name : string) :
  run op = (Normal tt, encoded_log options data contentType) ->
  sent_header op name
  = encoded_headers (headers options) data contentType !! name.
Proof. unfold sent_header, dispatched. intros ->. reflexivity. Qed.

(** With no [Content-Type] from the caller, a non-empty default is
    stored; an empty one stores nothing. *)
Lemma encoded_headers_default (h : Headers) (data : Js.Value) (contentType : string) :
  h !! "Content-Type" = None ->
  encoded_headers h data contentType !! "Content-Type"
  = if String.eqb contentType "" then None else Some contentType.
Proof.
  intros Hnone. unfold encoded_headers, header.
  rewrite lookup_insert_ne by discriminate. rewrite Hnone. simpl.
  destruct (String.eqb contentType ""); simpl.
  - rewrite lookup_insert_ne by discriminate. exact Hnone.
  - apply lookup_insert_eq.
Qed.

(** A non-empty [Content-Type] of the caller stays. *)
Lemma encoded_headers_kept (h : Headers) (data : Js.Value)
    (contentType value : string) :
  h !! "Content-Type" = Some value -> value <> "" ->
  encoded_headers h data contentType
  = <["Content-Length" := content_length data]> h.
Proof.
  intros Hsome Hne. unfold encoded_headers, header.
  rewrite lookup_insert_ne by discriminate. rewrite Hsome. simpl.
  destruct (String.eqb_spec value "") as [->|_]; [congruence|].
  rewrite andb_false_r. reflexivity.
Qed.

(** Entries other than the two derived headers are the caller's. *)
Lemma encoded_headers_frame (h : Headers) (data : Js.Value)
    (contentType name : string) :
  name <> "Content-Length" -> name <> "Content-Type" ->
  encoded_headers h data contentType !! name = h !! name.
Proof.
  intros Hlen Htype. unfold encoded_headers.
  destruct (Js.truthy (Js.String_ contentType) && _);
    repeat (rewrite lookup_insert_ne by congruence); reflexivity.
Qed.

(** The content type [sendPost] leaves in the header map: a non-empty
    default replaces an absent or empty entry and nothing else. *)
Lemma encoded_headers_content_type (h : Headers) (data : Js.Value)
    (contentType : string) :
  encoded_headers h data contentType !! "Content-Type"
  = if String.eqb contentType "" then h !! "Content-Type"
    else match h !! "Content-Type" with
         | Some value =>
             if String.eqb value "" then Some contentType else Some value
         | None => Some contentType
         end.
Proof.
  unfold encoded_headers, header.
  rewrite lookup_insert_ne by discriminate.
  destruct (h !! "Content-Type") as [value|] eqn:Hcaller; simpl;
    destruct (String.eqb contentType ""); simpl;
    try destruct (String.eqb value ""); simpl;
    rewrite ?lookup_insert_eq, ?lookup_insert_ne by discriminate; auto.
Qed.

Lemma encodes_as_log (op : M unit) (options : RequestOptions)
    (data : Js.Value) (contentType : string) :
  run op = (Normal tt, encoded_log options data contentType) ->
  headers options !! "Content-Type" = None ->
  encodes_as op (payload_bytes data)
    (if String.eqb contentType "" then None else Some contentType).
Proof.
  intros Hrun Hnone. unfold encodes_as.
  rewrite (encoded_sent_bytes _ _ _ _ Hrun), (encoded_sent_header _ _ _ _ _ Hrun).
  rewrite encoded_headers_default by exact Hnone.
  split; [exact (encoded_completes _ _ _ _ Hrun)|]. split; reflexivity.
Qed.

(** [formData[param]] is the value written next to the key. *)
Lemma get_own_property (formData : list (string * Js.Value)) (name : string)
    (value : Js.Value) :
  NoDup (Object_keys formData) -> In (name, value) formData ->
  get formData name = value.
Proof.
  unfold Object_keys.
  induction formData as [|[name' value'] rest IH]; intros Hnodup Hin.
  - destruct Hin.
  - simpl in Hnodup. apply NoDup_cons in Hnodup as [Hfresh Hnodup].
    simpl. destruct Hin as [Heq|Hin].
    + inversion Heq; subst. rewrite String.eqb_refl. reflexivity.
    + destruct (String.eqb_spec name' name) as [->|_].
      * exfalso. apply Hfresh. apply list_elem_of_In.
        apply (in_map fst) in Hin. exact Hin.
      * apply IH; assumption.
Qed.

Lemma form_params_text (formData : list (string * Js.Value)) :
  NoDup (Object_keys formData) ->
  Js.join "&" (map (form_param formData) (Object_keys formData))
  = form_text formData.
Proof.
  intros Hnodup. unfold form_text, Object_keys. f_equal.
  rewrite map_map. apply map_ext_in. intros [name value] Hin.
  unfold form_param. simpl.
  rewrite (get_own_property formData name value Hnodup Hin). reflexivity.
Qed.

(** ** Properties of the body encoder *)

(** C3, as the code has it.  [requestPost] and [requestPut] choose the
    encoding from the shape of [data], whatever the caller's header map
    holds: absent data sends no payload and leaves [Content-Type] as
    it is; a Buffer is sent unchanged, with the default
    [application/octet-stream]; any other object is sent as its JSON
    text, with the default [application/json;charset=utf-8]; a string is
    sent unchanged, with the default [text/plain;charset=utf-8].  The
    default is the content type sent exactly when the caller's map has
    no [Content-Type] entry or one whose value is the empty string; a
    non-empty value of the caller is sent instead. *)
Theorem postPut_encoding_by_shape (url : string) (data : Js.Value)
    (headers : Headers) (urlObj : URL) :
  parseURL url = Some urlObj ->
  let content_type (default : string) : option string :=
    match headers !! "Content-Type" with
    | Some value => if String.eqb value "" then Some default else Some value
    | None => Some default
    end in
  let chosen (op : M unit) : Prop :=
    match data with
    | Js.Undefined | Js.Null => encodes_as op [] (headers !! "Content-Type")
    | Js.Buf b => encodes_as op b (content_type "application/octet-stream")
    | Js.Array _ | Js.Object _ =>
        encodes_as op
          (match JSON_stringify data with
           | Some text => Js.utf8 text
           | None => []
           end)
          (content_type "application/json;charset=utf-8")
    | Js.String_ s =>
        encodes_as op (Js.utf8 s) (content_type "text/plain;charset=utf-8")
    | Js.Boolean _ | Js.Number_ _ => True
    end in
  chosen (requestPost url data headers) /\ chosen (requestPut url data headers).
Proof.
  intros Hparse content_type chosen.
  assert (Hmethod : forall method, chosen (postPut method url data headers)).
  { intros method.
    pose proof (run_postPut method url data headers urlObj Hparse) as Hrun.
    pose proof (encoded_completes _ _ _ _ Hrun) as Hcompletes.
    pose proof (encoded_sent_bytes _ _ _ _ Hrun) as Hbytes.
    pose proof (encoded_sent_header _ _ _ _ "Content-Type" Hrun) as Htype.
    rewrite encoded_headers_content_type in Htype.
    subst chosen content_type. unfold encodes_as.
    destruct data; simpl in *; try exact I;
      try (split; [exact Hcompletes|]; split; [exact Hbytes|exact Htype]).
    - destruct (JSON_stringify (Js.Array items));
        (split; [exact Hcompletes|]; split; [exact Hbytes|exact Htype]).
    - destruct (JSON_stringify (Js.Object props));
        (split; [exact Hcompletes|]; split; [exact Hbytes|exact Htype]). }
  split; apply Hmethod.
Qed.

(** C4. Every operation that encodes a body ([requestPost],
    [requestPut], [requestJson], [requestForm]) sends a
    [Content-Length] that is the decimal number of body bytes it
    writes, ["0"] when it writes none, whatever [Content-Length] the
    caller put in the header map. *)
Theorem content_length_is_payload_length (url : string) (data : Js.Value)
    (formData : list (string * Js.Value)) (headers : Headers) (urlObj : URL) :
  parseURL url = Some urlObj ->
  let precise (op : M unit) : Prop :=
    completes op
    /\ sent_header op "Content-Length"
       = Some (Js.Number_toString
                 (Js.Num (Z.of_nat (List.length (sent_bytes op)))))
    /\ (sent_bytes op = [] -> sent_header op "Content-Length" = Some "0") in
  precise (requestPost url data headers)
  /\ precise (requestPut url data headers)
  /\ precise (requestJson url data headers)
  /\ precise (requestForm url formData headers).
Proof.
  intros Hparse precise.
  assert (Hlog : forall op options payload contentType,
             run op = (Normal tt, encoded_log options payload contentType) ->
             precise op).
  { intros op options payload contentType Hrun. subst precise. simpl.
    rewrite (encoded_sent_bytes _ _ _ _ Hrun), (encoded_sent_header _ _ _ _ _ Hrun).
    rewrite encoded_headers_content_length, content_length_payload.
    split; [exact (encoded_completes _ _ _ _ Hrun)|].
    split; [reflexivity|]. intros ->. reflexivity. }
  split; [|split; [|split]].
  - exact (Hlog _ _ _ _ (run_postPut "POST" url data headers urlObj Hparse)).
  - exact (Hlog _ _ _ _ (run_postPut "PUT" url data headers urlObj Hparse)).
  - exact (Hlog _ _ _ _ (run_requestJson url data headers urlObj Hparse)).
  - exact (Hlog _ _ _ _ (run_requestForm url formData headers urlObj Hparse)).
Qed.

(** C5, as the code has it.  When the caller's header map holds a
    non-empty [Content-Type], every encoding operation sends that value
    unchanged, and every header other than [Content-Length] and
    [Content-Type] goes out as the caller gave it. *)
Theorem caller_content_type_kept (url : string) (data : Js.Value)
    (formData : list (string * Js.Value)) (headers : Headers) (urlObj : URL)
    (value : string) :
  parseURL url = Some urlObj ->
  headers !! "Content-Type" = Some value ->
  value <> "" ->
  let kept (op : M unit) : Prop :=
    completes op
    /\ sent_header op "Content-Type" = Some value
    /\ forall name, name <> "Content-Length" -> name <> "Content-Type" ->
         sent_header op name = headers !! name in
  kept (requestPost url data headers)
  /\ kept (requestPut url data headers)
  /\ kept (requestJson url data headers)
  /\ kept (requestForm url formData headers).
Proof.
  intros Hparse Hsome Hne kept.
  assert (Hlog : forall op method payload contentType,
             run op = (Normal tt,
                       encoded_log (descriptor urlObj headers method)
                         payload contentType) ->
             kept op).
  { intros op method payload contentType Hrun. subst kept. simpl.
    split; [exact (encoded_completes _ _ _ _ Hrun)|]. split.
    - rewrite (encoded_sent_header _ _ _ _ _ Hrun). simpl.
      rewrite (encoded_headers_kept _ _ _ value Hsome Hne).
      rewrite lookup_insert_ne by discriminate. exact Hsome.
    - intros name Hlen Htype.
      rewrite (encoded_sent_header _ _ _ _ _ Hrun). simpl.
      apply encoded_headers_frame; assumption. }
  split; [|split; [|split]].
  - exact (Hlog _ _ _ _ (run_postPut "POST" url data headers urlObj Hparse)).
  - exact (Hlog _ _ _ _ (run_postPut "PUT" url data headers urlObj Hparse)).
  - exact (Hlog _ _ _ _ (run_requestJson url data headers urlObj Hparse)).
  - exact (Hlog _ _ _ _ (run_requestForm url formData headers urlObj Hparse)).
Qed.

(** C8. [requestForm] sends the pairs of the form, each key and each
    value percent-encoded on its own, key and value joined by [=] and
    the pairs by [&], as [application/x-www-form-urlencoded] when the
    caller set no [Content-Type]; the form [{number: 42, text: "foo"}]
    is sent as [number=42&text=foo]. *)
Theorem requestForm_payload (url : string) (formData : list (string * Js.Value))
    (headers : Headers) (urlObj : URL) :
  parseURL url = Some urlObj ->
  NoDup (Object_keys formData) ->
  (completes (requestForm url formData headers)
   /\ sent_bytes (requestForm url formData headers)
      = Js.utf8
          (Js.join "&"
             (map (fun '(name, value) =>
                     Js.encodeURIComponent name +:+ "="
                       +:+ Js.encodeURIComponent (ToString value)) formData))
   /\ (headers !! "Content-Type" = None ->
       sent_header (requestForm url formData headers) "Content-Type"
       = Some "application/x-www-form-urlencoded"))
  /\ sent_bytes
       (requestForm url
          [("number", Js.Number_ (Js.Num 42)); ("text", Js.String_ "foo")]
          headers)
     = Js.utf8 "number=42&text=foo".
Proof.
  intros Hparse Hnodup. split.
  - pose proof (run_requestForm url formData headers urlObj Hparse) as Hrun.
    split; [exact (encoded_completes _ _ _ _ Hrun)|]. split.
    + rewrite (encoded_sent_bytes _ _ _ _ Hrun). simpl.
      rewrite form_params_text by exact Hnodup. reflexivity.
    + intros Hnone. rewrite (encoded_sent_header _ _ _ _ _ Hrun). simpl.
      rewrite encoded_headers_default by exact Hnone. reflexivity.
  - rewrite (encoded_sent_bytes _ _ _ _
               (run_requestForm url _ headers urlObj Hparse)).
    reflexivity.
Qed.

(** C9. With the empty string as [data], [requestPost] and
    [requestPut] send [Content-Type: text/plain;charset=utf-8] (when
    the caller set none) and [Content-Length: 0], and write no body:
    after opening the request they make the calls they make for absent
    data. *)
Theorem empty_string_sent_without_body (url : string) (headers : Headers)
    (urlObj : URL) :
  parseURL url = Some urlObj ->
  headers !! "Content-Type" = None ->
  let as_absent (op : Js.Value -> M unit) : Prop :=
    encodes_as (op (Js.String_ "")) [] (Some "text/plain;charset=utf-8")
    /\ sent_header (op (Js.String_ "")) "Content-Length" = Some "0"
    /\ existsb is_write (snd (run (op (Js.String_ "")))) = false
    /\ drop 1 (snd (run (op (Js.String_ "")))) = drop 1 (snd (run (op Js.Null)))
    /\ sent_header (op Js.Null) "Content-Type" = None in
  as_absent (fun data => requestPost url data headers)
  /\ as_absent (fun data => requestPut url data headers).
Proof.
  intros Hparse Hnone as_absent.
  assert (Hmethod : forall method,
             as_absent (fun data => postPut method url data headers)).
  { intros method. subst as_absent. simpl.
    pose proof (run_postPut method url (Js.String_ "") headers urlObj Hparse)
      as Hempty.
    pose proof (run_postPut method url Js.Null headers urlObj Hparse) as Hnull.
    simpl in Hempty, Hnull.
    split; [exact (encodes_as_log _ _ _ _ Hempty Hnone)|]. split.
    { rewrite (encoded_sent_header _ _ _ _ _ Hempty).
      apply encoded_headers_content_length. }
    split.
    { rewrite Hempty. unfold encoded_log, wrote, armed. simpl.
      destruct (headers !! "Request-Timeout") as [timeoutText|]; [|reflexivity].
      destruct (Js.parseInt timeoutText); reflexivity. }
    split.
    { rewrite Hempty, Hnull. reflexivity. }
    rewrite (encoded_sent_header _ _ _ _ _ Hnull). simpl.
    rewrite encoded_headers_default by exact Hnone. reflexivity. }
  split; apply Hmethod.
Qed.

(** C10. Data that is none of null, undefined, a Buffer, an object or a
    string (a boolean, a Number, a BigInt, a Symbol, a function) is not
    refused by [requestPost] and [requestPut]: the operation goes on
    exactly as for the string [String(data)], whose bytes it sends, with
    their number as [Content-Length] and with
    [text/plain;charset=utf-8] when the caller set no [Content-Type]. *)
Theorem other_data_sent_as_text (url : string) (data : Js.Data)
    (headers : Headers) (urlObj : URL) :
  parseURL url = Some urlObj ->
  Js.other_shape data = true ->
  let as_text (op : Js.Data -> M unit) : Prop :=
    run (op data) = run (op (Js.Plain (Js.String_ (String_of data))))
    /\ completes (op data)
    /\ sent_bytes (op data) = Js.utf8 (String_of data)
    /\ sent_header (op data) "Content-Length"
       = Some (Js.Number_toString
                 (Js.Num (Z.of_nat (String.length (String_of data)))))
    /\ (headers !! "Content-Type" = None ->
        sent_header (op data) "Content-Type" = Some "text/plain;charset=utf-8") in
  as_text (fun data => requestPost url data headers)
  /\ as_text (fun data => requestPut url data headers).
Proof.
  intros Hparse Hshape as_text.
  assert (Hmethod : forall method,
             as_text (fun data => postPut method url data headers)).
  { intros method. subst as_text. simpl.
    pose proof (run_postPut_other method url data headers urlObj Hparse Hshape)
      as Hdata.
    pose proof (run_postPut method url (Js.String_ (String_of data)) headers
                  urlObj Hparse) as Htext.
    simpl in Htext.
    split; [rewrite Hdata, Htext; reflexivity|].
    split; [exact (encoded_completes _ _ _ _ Hdata)|].
    split; [exact (encoded_sent_bytes _ _ _ _ Hdata)|].
    split.
    - rewrite (encoded_sent_header _ _ _ _ _ Hdata).
      apply encoded_headers_content_length.
    - intros Hnone. rewrite (encoded_sent_header _ _ _ _ _ Hdata). simpl.
      rewrite encoded_headers_default by exact Hnone. reflexivity. }
  split; apply Hmethod.
Qed.

(** ** [parseInt] reads back what [toString] prints *)

Lemma digits_value_numeral (d : uint) (acc : Z) :
  Js.digits_value 10 (NilEmpty.string_of_uint d) acc = uint_value d acc.
Proof.
  revert acc. induction d; intros acc; [reflexivity|..];
    cbn [NilEmpty.string_of_uint Js.digits_value uint_value];
    rewrite <- IHd; reflexivity.
Qed.

Lemma uint_value_positive (d : uint) (acc : positive) :
  uint_value d (Z.pos acc) = Z.pos (Pos.of_uint_acc d acc).
Proof.
  revert acc. induction d; intros acc; [reflexivity|..];
    cbn [uint_value Pos.of_uint_acc];
    rewrite <- IHd; f_equal; lia.
Qed.

Lemma uint_value_zero (d : uint) : uint_value d 0 = Z.of_N (Pos.of_uint d).
Proof.
  induction d; [reflexivity|exact IHd|..];
    cbn [uint_value Pos.of_uint];
    match goal with
    | |- uint_value _ ?acc = _ =>
        let v := eval compute in acc in change acc with v
    end;
    apply uint_value_positive.
Qed.

Lemma parse_digits_numeral (p : positive) :
  Js.parse_digits 10 (NilEmpty.string_of_uint (Pos.to_uint p)) = Some (Z.pos p).
Proof.
  pose proof (DecimalPos.Unsigned.of_to p) as Hback.
  pose proof (DecimalPos.Unsigned.to_uint_nonnil p) as Hnonnil.
  assert (Hvalue : Js.digits_value 10
                     (NilEmpty.string_of_uint (Pos.to_uint p)) 0 = Z.pos p).
  { rewrite digits_value_numeral, uint_value_zero, Hback. reflexivity. }
  destruct (Pos.to_uint p); [congruence|..];
    unfold Js.parse_digits; cbn [NilEmpty.string_of_uint] in *;
    rewrite Hvalue; reflexivity.
Qed.

(** A numeral has no white space in front and no [0x] prefix. *)
Lemma trimStart_numeral (d : uint) :
  Js.trimStart (NilEmpty.string_of_uint d) = NilEmpty.string_of_uint d.
Proof.
  destruct d; [reflexivity|..]; cbn [NilEmpty.string_of_uint];
    destruct (NilEmpty.string_of_uint d) as [|c2 [|c3 rest]]; reflexivity.
Qed.

Lemma trimStart_minus (s : string) :
  Js.trimStart (String "-" s) = String "-" s.
Proof. destruct s as [|c2 [|c3 rest]]; reflexivity. Qed.

Lemma strip_sign_numeral (d : uint) :
  Js.strip_sign (NilEmpty.string_of_uint d) = (1, NilEmpty.string_of_uint d).
Proof. destruct d; reflexivity. Qed.

Lemma strip_hex_prefix_numeral (d : uint) :
  Js.strip_hex_prefix (NilEmpty.string_of_uint d)
  = (10, NilEmpty.string_of_uint d).
Proof. destruct d as [|d| | | | | | | | |]; try reflexivity. destruct d; reflexivity. Qed.

Lemma string_of_uint_nonnil (d : uint) :
  d <> Nil -> NilZero.string_of_uint d = NilEmpty.string_of_uint d.
Proof. destruct d; [congruence|reflexivity..]. Qed.

Lemma parseInt_toString (z : Z) :
  Js.parseInt (Js.Number_toString (Js.Num z)) = Js.Num z.
Proof.
  destruct z as [|p|p]; [reflexivity| |]; unfold Js.Number_toString; simpl Z.to_int;
    unfold NilZero.string_of_int;
    rewrite (string_of_uint_nonnil _ (DecimalPos.Unsigned.to_uint_nonnil p));
    unfold Js.parseInt.
  - rewrite trimStart_numeral, strip_sign_numeral, strip_hex_prefix_numeral.
    rewrite parse_digits_numeral. reflexivity.
  - rewrite trimStart_minus. cbn [Js.strip_sign].
    rewrite strip_hex_prefix_numeral, parse_digits_numeral. reflexivity.
Qed.

Lemma toString_nonempty (z : Z) : Js.Number_toString (Js.Num z) <> "".
Proof.
  intros Hempty. pose proof (parseInt_toString z) as Hback.
  rewrite Hempty in Hback. discriminate Hback.
Qed.

(** ** Properties of the options builder *)

(** C6, as the code has it.  For a URL that parses, the port of the
    request options is the port of the URL object when it has one, and
    otherwise 443 for [https:] and 80 for any other protocol.  In terms
    of the URL string, whose port the URL object holds unless it is the
    default port of the protocol: a written port other than that default
    is the port of the options; for [http:] and [https:] every written
    port is; a written default port of another protocol is lost, and
    the port is 80. *)
Theorem port_resolution (url : string) (headers : Headers) (method : string)
    (urlObj : URL) :
  parseURL url = Some urlObj ->
  exists options,
    run (makeReqOptions url headers method) = (Normal options, [])
    /\ (forall n, url_port urlObj = Js.Number_toString (Js.Num n) ->
        port options = Js.Num n)
    /\ (url_port urlObj <> "" -> port options = Js.parseInt (url_port urlObj))
    /\ (url_port urlObj = "" -> url_protocol urlObj = "https:" ->
        port options = Js.Num 443)
    /\ (url_port urlObj = "" -> url_protocol urlObj <> "https:" ->
        port options = Js.Num 80)
    /\ (forall given,
          url_port urlObj = port_property (url_protocol urlObj) given ->
          match given with
          | Some p =>
              (default_port (url_protocol urlObj) <> Some p ->
               port options = Js.Num p)
              /\ (url_protocol urlObj = "http:" \/ url_protocol urlObj = "https:" ->
                  port options = Js.Num p)
              /\ (default_port (url_protocol urlObj) = Some p ->
                  url_protocol urlObj <> "https:" ->
                  port options = Js.Num 80)
          | None =>
              port options
              = if String.eqb (url_protocol urlObj) "https:" then Js.Num 443
                else Js.Num 80
          end).
Proof.
  intros Hparse. exists (descriptor urlObj headers method).
  split; [exact (run_makeReqOptions url headers method urlObj Hparse)|].
  assert (Hobject :
            (forall n, url_port urlObj = Js.Number_toString (Js.Num n) ->
                       port (descriptor urlObj headers method) = Js.Num n)
            /\ (url_port urlObj = "" ->
                port (descriptor urlObj headers method)
                = if String.eqb (url_protocol urlObj) "https:" then Js.Num 443
                  else Js.Num 80)).
  { unfold descriptor. simpl.
    destruct (String.eqb_spec (url_port urlObj) "") as [Hempty|Hport].
    - split; [|reflexivity].
      intros n Hn. rewrite Hn in Hempty. destruct (toString_nonempty n Hempty).
    - split; [|contradiction]. intros n ->. apply parseInt_toString. }
  destruct Hobject as [Hnumeral Hnone].
  split; [exact Hnumeral|]. split; [|split; [|split]].
  - intros Hne. unfold descriptor. simpl.
    destruct (String.eqb_spec (url_port urlObj) ""); [contradiction|reflexivity].
  - intros Hempty Hproto. rewrite (Hnone Hempty), Hproto. reflexivity.
  - intros Hempty Hproto. rewrite (Hnone Hempty).
    destruct (String.eqb_spec (url_protocol urlObj) "https:"); congruence.
  - intros [p|] Hwritten; [|exact (Hnone Hwritten)].
    unfold port_property in Hwritten.
    destruct (bool_decide_reflect (default_port (url_protocol urlObj) = Some p))
      as [Hdefault|Hother].
    + split; [contradiction|]. split.
      * intros [Hproto|Hproto]; rewrite Hproto in Hdefault;
          rewrite (Hnone Hwritten), Hproto;
          injection Hdefault as <-; reflexivity.
      * intros _ Hproto. rewrite (Hnone Hwritten).
        destruct (String.eqb_spec (url_protocol urlObj) "https:"); congruence.
    + split; [intros _; exact (Hnumeral p Hwritten)|].
      split; [intros _; exact (Hnumeral p Hwritten)|]. contradiction.
Qed.

(** C7. When the URL does not parse, each of the six operations ends
    with the [TypeError] of [new URL] before any call on the transport:
    the promise is rejected and nothing was opened or written. *)
Theorem invalid_url_fails_before_network (url : string) (data : Js.Value)
    (formData : list (string * Js.Value)) (headers : Headers) :
  parseURL url = None ->
  let fails (op : M unit) : Prop :=
    run op = (Throw InvalidUrl, [])
    /\ network_activity (snd (run op)) = false
    /\ sent_bytes op = []
    /\ forall req, promise (launch req op) = Some (Rejected InvalidUrl)
                   /\ log (launch req op) = [] in
  fails (requestHead url headers)
  /\ fails (requestGet url headers)
  /\ fails (requestPost url data headers)
  /\ fails (requestPut url data headers)
  /\ fails (requestJson url data headers)
  /\ fails (requestForm url formData headers).
Proof.
  intros Hparse fails.
  assert (Hthrow : forall op, run op = (Throw InvalidUrl, []) -> fails op).
  { intros op Hrun. subst fails. simpl. unfold sent_bytes, launch.
    rewrite Hrun. repeat split. }
  assert (Hopt : forall method,
             makeReqOptions url headers method [] = (Throw InvalidUrl, [])).
  { intros method. exact (run_makeReqOptions_invalid url headers method Hparse). }
  repeat apply conj; apply Hthrow;
    unfold run, requestHead, requestGet, requestPost, requestPut, postPut,
      requestJson, requestForm, mbind, M_bind;
    rewrite Hopt; reflexivity.
Qed.

(** ** Lemmas on the promise *)

Lemma settle_pending (s : Settled) (st : State) :
  promise st = None -> promise (settle s st) = Some s.
Proof. unfold settle. intros ->. reflexivity. Qed.

Lemma settle_settled (s s' : Settled) (st : State) :
  promise st = Some s' -> settle s st = st.
Proof. unfold settle. intros ->. reflexivity. Qed.

Lemma settle_incoming (s : Settled) (st : State) :
  incoming (settle s st) = incoming st.
Proof. unfold settle. destruct (promise st); reflexivity. Qed.

Lemma settle_log (s : Settled) (st : State) : log (settle s st) = log st.
Proof. unfold settle. destruct (promise st); reflexivity. Qed.

(** A settled promise keeps its value: [resolve] and [reject] come too
    late. *)
Lemma settled_stays (st : State) (ev : Event) (s : Settled) :
  promise st = Some s -> promise (on_event st ev) = Some s.
Proof.
  intros Hsettled.
  destruct ev as [err| |res|i chunk|i err|i]; simpl;
    unfold reject, resolve, settle; simpl;
    repeat case_match; simpl; congruence.
Qed.

Lemma settled_stays_events (evs : list Event) (st : State) (s : Settled) :
  promise st = Some s -> promise (on_events st evs) = Some s.
Proof.
  revert st. induction evs as [|ev evs IH]; intros st Hsettled; [exact Hsettled|].
  simpl. apply IH. apply settled_stays. exact Hsettled.
Qed.

Lemma unresolved_settle_rejected (e : JsError) (st : State) :
  unresolved st -> unresolved (settle (Rejected e) st).
Proof.
  unfold unresolved, settle. intros Hun result.
  destruct (promise st) eqn:Hpromise; [rewrite Hpromise; apply Hun|].
  simpl. discriminate.
Qed.

(** Responses without [content-type] never resolve the promise. *)
Lemma unresolved_step (st : State) (ev : Event) :
  unresolved st -> Forall (fun entry => lacks_content_type (fst entry)) (incoming st) ->
  without_content_type ev ->
  unresolved (on_event st ev)
  /\ Forall (fun entry => lacks_content_type (fst entry)) (incoming (on_event st ev)).
Proof.
  intros Hun Hall Hev. destruct ev as [err| |res|i chunk|i err|i]; simpl.
  - unfold reject. rewrite settle_incoming.
    split; [apply unresolved_settle_rejected|]; assumption.
  - unfold reject. rewrite settle_incoming.
    split; [apply unresolved_settle_rejected|]; assumption.
  - split; [exact Hun|]. apply Forall_app. split; [exact Hall|].
    constructor; [exact Hev|constructor].
  - destruct (incoming st !! i) as [[res chunks]|] eqn:Hlookup;
      [|split; assumption].
    split; [exact Hun|]. simpl. apply Forall_insert; [exact Hall|].
    exact (Forall_lookup_1 _ _ _ _ Hall Hlookup).
  - unfold reject. rewrite settle_incoming.
    split; [apply unresolved_settle_rejected|]; assumption.
  - destruct (incoming st !! i) as [[res chunks]|] eqn:Hlookup;
      [|split; assumption].
    pose proof (Forall_lookup_1 _ _ _ _ Hall Hlookup) as Hlacks.
    unfold lacks_content_type in Hlacks. simpl in Hlacks. rewrite Hlacks.
    unfold reject. rewrite settle_incoming.
    split; [apply unresolved_settle_rejected|]; assumption.
Qed.

Lemma unresolved_events (evs : list Event) (st : State) :
  unresolved st -> Forall (fun entry => lacks_content_type (fst entry)) (incoming st) ->
  Forall without_content_type evs ->
  unresolved (on_events st evs).
Proof.
  revert st. induction evs as [|ev evs IH]; intros st Hun Hall Hevs;
    [exact Hun|].
  apply Forall_cons in Hevs as [Hev Hevs]. simpl.
  destruct (unresolved_step st ev Hun Hall Hev) as [Hun' Hall'].
  apply IH; assumption.
Qed.

Lemma unresolved_launch (req : ClientRequest) (op : M unit) :
  unresolved (launch req op).
Proof.
  unfold unresolved, launch. intros result.
  destruct (run op) as [[[]|e] log]; discriminate.
Qed.

(** ** Properties of the dispatcher *)

(** C1, as the code has it.  When the header map of a request holds a
    [Request-Timeout] whose value [parseInt] reads as an integer [n]
    that is not negative, with [n * 1000] a safe integer, [sendRequest]
    calls [req.setTimeout(n * 1000)] between opening the request and
    writing the body; on a transport that takes these calls (every
    duration that is not negative among them) all of them are made, up
    to [req.end()].  When the time-out event arrives while the promise
    is pending, the request is destroyed and the promise is rejected,
    for good, with the error ["Request timed out"], which is not the
    error of a transport failure: an ["error"] event rejects with the
    object it carries. *)
Theorem request_timeout (throws : Call -> option JsError)
    (options : RequestOptions) (postData : Js.Value)
    (timeoutText : string) (n : Z) (st : State) :
  headers options !! "Request-Timeout" = Some timeoutText ->
  Js.parseInt timeoutText = Js.Num n ->
  0 <= n ->
  n * 1000 <= Js.MAX_SAFE_INTEGER ->
  (forall msecs, 0 <= msecs -> throws (setTimeout (Js.Num msecs)) = None) ->
  throws (request (transporter_of options) options) = None ->
  throws (write postData) = None ->
  throws end_ = None ->
  promise st = None ->
  fst (run (sendRequest options postData)) = Normal tt
  /\ performed throws (snd (run (sendRequest options postData)))
     = (request (transporter_of options) options
          :: setTimeout (Js.Num (n * 1000)) :: wrote postData ++ [end_],
        None)
  /\ log (on_event st req_timeout) = log st ++ [destroy]
  /\ (forall later,
        promise (on_events (on_event st req_timeout) later)
        = Some (Rejected (Error_ "Request timed out")))
  /\ kind_of (Error_ "Request timed out") = KRequestTimedOut
  /\ (forall err,
        promise (on_event st (req_error err)) = Some (Rejected (Emitted err))
        /\ kind_of (Emitted err) = KTransportError
        /\ Emitted err <> Error_ "Request timed out").
Proof.
  intros Hheader Hparse Hsign Hsafe Htimeout Hrequest Hwrite Hend Hpending.
  assert (Hrun : run (sendRequest options postData)
                 = (Normal tt,
                    request (transporter_of options) options
                      :: setTimeout (Js.Num (n * 1000))
                      :: wrote postData ++ [end_])).
  { rewrite run_sendRequest. unfold armed. rewrite Hheader, Hparse. reflexivity. }
  split; [rewrite Hrun; reflexivity|]. split; [|split; [|split; [|split]]].
  - rewrite Hrun. simpl snd. apply performed_accepted.
    constructor; [exact Hrequest|]. constructor; [apply Htimeout; lia|].
    apply Forall_app. split; [|constructor; [exact Hend|constructor]].
    destruct (wrote_cases postData) as [->| ->];
      [constructor|constructor; [exact Hwrite|constructor]].
  - simpl. unfold reject. rewrite settle_log. reflexivity.
  - intros later. apply settled_stays_events. simpl. unfold reject.
    apply settle_pending. exact Hpending.
  - reflexivity.
  - intros err. split; [|split; [reflexivity|discriminate]].
    simpl. unfold reject. apply settle_pending. exact Hpending.
Qed.

(** C2. When a response whose headers hold no [content-type] ends
    while the promise is pending, the promise is rejected, for good,
    with the error ["Content-Type header is missing"], whatever the
    status code of the response, and it is never resolved with a result.
    More generally no sequence of events whose responses all lack the
    header resolves the promise of an operation. *)
Theorem missing_content_type (st : State) (i : nat) (hdrs : Headers)
    (code : option Z) (message : option string) (chunks : list Js.Buffer) :
  promise st = None ->
  incoming st !! i = Some (mkIncomingMessage hdrs code message, chunks) ->
  hdrs !! "content-type" = None ->
  (forall later,
     promise (on_events (on_event st (res_end i)) later)
     = Some (Rejected (Error_ "Content-Type header is missing"))
     /\ forall result,
          promise (on_events (on_event st (res_end i)) later)
          <> Some (Resolved result))
  /\ kind_of (Error_ "Content-Type header is missing") = KMissingContentType
  /\ (forall req op evs,
        Forall without_content_type evs ->
        unresolved (on_events (launch req op) evs)).
Proof.
  intros Hpending Hlookup Hnone. split; [|split; [reflexivity|]].
  - intros later.
    assert (Hrejected : promise (on_events (on_event st (res_end i)) later)
                        = Some (Rejected (Error_ "Content-Type header is missing"))).
    { apply settled_stays_events. unfold on_event. rewrite Hlookup.
      cbn [res_headers]. rewrite Hnone.
      unfold reject. apply settle_pending. exact Hpending. }
    split; [exact Hrejected|]. intros result. rewrite Hrejected. discriminate.
  - intros req op evs Hevs. apply unresolved_events; [| |exact Hevs].
    + apply unresolved_launch.
    + unfold launch. destruct (run op) as [[[]|e] log]; constructor.
Qed.

Lemma run_without_body (url method : string) (headers : Headers) (urlObj : URL) :
  parseURL url = Some urlObj ->
  run (options ← makeReqOptions url headers method; sendRequest options Js.Null)
  = (Normal tt,
     request (transporter_of (descriptor urlObj headers method))
             (descriptor urlObj headers method)
       :: armed (descriptor urlObj headers method) ++ [end_]).
Proof.
  intros Hparse.
  pose proof (run_makeReqOptions url headers method urlObj Hparse) as Hopt.
  pose proof (run_sendRequest (descriptor urlObj headers method) Js.Null) as Hsend.
  unfold run, mbind, M_bind in *. rewrite Hopt. exact Hsend.
Qed.

(** Each of the six operations makes the [req.setTimeout] call when the
    caller's header map holds a [Request-Timeout] that [parseInt] reads. *)
Lemma every_operation_arms_timeout (url : string) (data : Js.Value)
    (formData : list (string * Js.Value)) (headers : Headers) (urlObj : URL)
    (timeoutText : string) (n : Z) :
  parseURL url = Some urlObj ->
  headers !! "Request-Timeout" = Some timeoutText ->
  Js.parseInt timeoutText = Js.Num n ->
  let arms (op : M unit) : Prop :=
    In (setTimeout (Js.Num (n * 1000))) (snd (run op)) in
  arms (requestHead url headers)
  /\ arms (requestGet url headers)
  /\ arms (requestPost url data headers)
  /\ arms (requestPut url data headers)
  /\ arms (requestJson url data headers)
  /\ arms (requestForm url formData headers).
Proof.
  intros Hparse Hheader Hread arms.
  assert (Harmed : forall method,
             armed (descriptor urlObj headers method)
             = [setTimeout (Js.Num (n * 1000))]).
  { intros method. unfold armed. simpl. rewrite Hheader, Hread. reflexivity. }
  assert (Hencoded : forall op method payload contentType,
             run op = (Normal tt,
                       encoded_log (descriptor urlObj headers method)
                         payload contentType) ->
             arms op).
  { intros op method payload contentType Hrun. subst arms. simpl.
    rewrite Hrun. unfold encoded_log. rewrite Harmed. simpl. auto. }
  assert (Hplain : forall method,
             arms (options ← makeReqOptions url headers method;
                   sendRequest options Js.Null)).
  { intros method. subst arms. simpl.
    rewrite (run_without_body url method headers urlObj Hparse), Harmed.
    simpl. auto. }
  split; [apply Hplain|]. split; [apply Hplain|].
  split; [|split; [|split]].
  - exact (Hencoded _ _ _ _ (run_postPut "POST" url data headers urlObj Hparse)).
  - exact (Hencoded _ _ _ _ (run_postPut "PUT" url data headers urlObj Hparse)).
  - exact (Hencoded _ _ _ _ (run_requestJson url data headers urlObj Hparse)).
  - exact (Hencoded _ _ _ _ (run_requestForm url formData headers urlObj Hparse)).
Qed.

(** ** Further properties of the synchronous part *)

(** X1. [requestHead] and [requestGet] open a request with the method
    [HEAD], resp. [GET], write no body, and send every header exactly
    as the caller gave it: no [Content-Length] or [Content-Type] is
    added. *)
Theorem requests_without_body (url : string) (headers : Headers) (urlObj : URL) :
  parseURL url = Some urlObj ->
  let plain (verb : string) (op : M unit) : Prop :=
    completes op
    /\ dispatched op = Some (descriptor urlObj headers verb)
    /\ sent_bytes op = []
    /\ existsb is_write (snd (run op)) = false
    /\ forall name, sent_header op name = headers !! name in
  plain "HEAD" (requestHead url headers) /\ plain "GET" (requestGet url headers).
Proof.
  intros Hparse plain.
  assert (Hverb : forall verb,
             plain verb (options ← makeReqOptions url headers verb;
                         sendRequest options Js.Null)).
  { intros verb. subst plain. simpl.
    pose proof (run_without_body url verb headers urlObj Hparse) as Hrun.
    unfold completes, dispatched, sent_bytes, sent_header, dispatched.
    rewrite Hrun. simpl.
    split; [reflexivity|]. split; [reflexivity|]. split; [|split].
    - change (request ?t ?o :: ?l) with ([request t o] ++ l).
      rewrite !body_bytes_app, body_bytes_armed. reflexivity.
    - destruct (armed_cases (descriptor urlObj headers verb)) as [->|[n ->]];
        reflexivity.
    - reflexivity. }
  split; apply Hverb.
Qed.

(** X2. The request line of every operation comes from the URL: host
    name, path (the path name followed by the query), protocol, and the
    secure transport exactly for the protocol [https:].  The method is
    [HEAD], [GET], [POST] or [PUT] by the operation; [requestJson] and
    [requestForm] post. *)
Theorem request_line (url : string) (data : Js.Value)
    (formData : list (string * Js.Value)) (headers : Headers) (urlObj : URL) :
  parseURL url = Some urlObj ->
  let line (verb : string) (op : M unit) : Prop :=
    transporter_used (snd (run op))
    = Some (if String.eqb (url_protocol urlObj) "https:" then https else http)
    /\ exists options,
         dispatched op = Some options
         /\ hostname options = url_hostname urlObj
         /\ path options = url_pathname urlObj +:+ url_search urlObj
         /\ protocol options = url_protocol urlObj
         /\ method options = verb in
  line "HEAD" (requestHead url headers)
  /\ line "GET" (requestGet url headers)
  /\ line "POST" (requestPost url data headers)
  /\ line "PUT" (requestPut url data headers)
  /\ line "POST" (requestJson url data headers)
  /\ line "POST" (requestForm url formData headers).
Proof.
  intros Hparse line.
  assert (Hencoded : forall op verb payload contentType,
             run op = (Normal tt,
                       encoded_log (descriptor urlObj headers verb)
                         payload contentType) ->
             line verb op).
  { intros op verb payload contentType Hrun. subst line. simpl.
    unfold dispatched. rewrite Hrun. split; [reflexivity|].
    eexists. split; [reflexivity|]. repeat split. }
  assert (Hplain : forall verb,
             line verb (options ← makeReqOptions url headers verb;
                        sendRequest options Js.Null)).
  { intros verb. subst line. simpl. unfold dispatched.
    rewrite (run_without_body url verb headers urlObj Hparse).
    split; [reflexivity|]. eexists. split; [reflexivity|]. repeat split. }
  split; [apply Hplain|]. split; [apply Hplain|]. split; [|split; [|split]].
  - exact (Hencoded _ _ _ _ (run_postPut "POST" url data headers urlObj Hparse)).
  - exact (Hencoded _ _ _ _ (run_postPut "PUT" url data headers urlObj Hparse)).
  - exact (Hencoded _ _ _ _ (run_requestJson url data headers urlObj Hparse)).
  - exact (Hencoded _ _ _ _ (run_requestForm url formData headers urlObj Hparse)).
Qed.

(** X3. Without a [Request-Timeout] header, or with one that
    [parseInt] cannot read, no operation calls [req.setTimeout]. *)
Theorem timeout_not_armed (url : string) (data : Js.Value)
    (formData : list (string * Js.Value)) (headers : Headers) (urlObj : URL) :
  parseURL url = Some urlObj ->
  match headers !! "Request-Timeout" with
  | Some timeoutText => Js.parseInt timeoutText = Js.NaN
  | None => True
  end ->
  let unarmed (op : M unit) : Prop :=
    existsb is_setTimeout (snd (run op)) = false in
  unarmed (requestHead url headers)
  /\ unarmed (requestGet url headers)
  /\ unarmed (requestPost url data headers)
  /\ unarmed (requestPut url data headers)
  /\ unarmed (requestJson url data headers)
  /\ unarmed (requestForm url formData headers).
Proof.
  intros Hparse Hheader unarmed.
  assert (Harmed : forall verb, armed (descriptor urlObj headers verb) = []).
  { intros verb. rewrite armed_descriptor.
    destruct (headers !! "Request-Timeout") as [timeoutText|]; [|reflexivity].
    rewrite Hheader. reflexivity. }
  assert (Hencoded : forall op verb payload contentType,
             run op = (Normal tt,
                       encoded_log (descriptor urlObj headers verb)
                         payload contentType) ->
             unarmed op).
  { intros op verb payload contentType Hrun. subst unarmed. simpl.
    rewrite Hrun. unfold encoded_log. rewrite Harmed. simpl.
    destruct (wrote_cases payload) as [->| ->]; reflexivity. }
  assert (Hplain : forall verb,
             unarmed (options ← makeReqOptions url headers verb;
                      sendRequest options Js.Null)).
  { intros verb. subst unarmed. simpl.
    rewrite (run_without_body url verb headers urlObj Hparse), Harmed.
    reflexivity. }
  split; [apply Hplain|]. split; [apply Hplain|]. split; [|split; [|split]].
  - exact (Hencoded _ _ _ _ (run_postPut "POST" url data headers urlObj Hparse)).
  - exact (Hencoded _ _ _ _ (run_postPut "PUT" url data headers urlObj Hparse)).
  - exact (Hencoded _ _ _ _ (run_requestJson url data headers urlObj Hparse)).
  - exact (Hencoded _ _ _ _ (run_requestForm url formData headers urlObj Hparse)).
Qed.

(** X4. Every operation makes its calls in one order: it opens one
    request, then sets at most one time-out, then writes at most one
    body, then ends the request.  On a transport whose calls may throw
    the calls made are the first of this sequence, up to the call that
    throws; when none throws they are the whole sequence, and nothing
    follows the end. *)
Theorem call_order (throws : Call -> option JsError) (url : string)
    (data : Js.Value) (formData : list (string * Js.Value)) (headers : Headers)
    (urlObj : URL) :
  parseURL url = Some urlObj ->
  let ordered (op : M unit) : Prop :=
    exists transporter options timeout body,
      (length timeout <= 1)%nat /\ forallb is_setTimeout timeout = true
      /\ (length body <= 1)%nat /\ forallb is_write body = true
      /\ fst (performed throws (snd (run op)))
         `prefix_of` request transporter options :: timeout ++ body ++ [end_]
      /\ (snd (performed throws (snd (run op))) = None ->
          fst (performed throws (snd (run op)))
          = request transporter options :: timeout ++ body ++ [end_]) in
  ordered (requestHead url headers)
  /\ ordered (requestGet url headers)
  /\ ordered (requestPost url data headers)
  /\ ordered (requestPut url data headers)
  /\ ordered (requestJson url data headers)
  /\ ordered (requestForm url formData headers).
Proof.
  intros Hparse ordered.
  assert (Hshape : forall op transporter options options' payload,
             run op = (Normal tt,
                       request transporter options
                         :: armed options' ++ wrote payload ++ [end_]) ->
             ordered op).
  { intros op transporter options options' payload Hrun. subst ordered. simpl.
    rewrite Hrun. exists transporter, options, (armed options'), (wrote payload).
    change (snd (Normal tt, ?l)) with l.
    assert (Htimeout : (length (armed options') <= 1)%nat
                       /\ forallb is_setTimeout (armed options') = true).
    { destruct (armed_cases options') as [->|[n ->]]; simpl;
        (split; [lia|reflexivity]). }
    assert (Hbody : (length (wrote payload) <= 1)%nat
                    /\ forallb is_write (wrote payload) = true).
    { destruct (wrote_cases payload) as [->| ->]; simpl;
        (split; [lia|reflexivity]). }
    destruct Htimeout as [? ?]. destruct Hbody as [? ?].
    repeat (split; [assumption|]).
    apply performed_prefix. }
  assert (Hplain : forall verb,
             ordered (options ← makeReqOptions url headers verb;
                      sendRequest options Js.Null)).
  { intros verb. eapply (Hshape _ _ _ _ Js.Null).
    exact (run_without_body url verb headers urlObj Hparse). }
  split; [apply Hplain|]. split; [apply Hplain|]. split; [|split; [|split]].
  - exact (Hshape _ _ _ _ _ (run_postPut "POST" url data headers urlObj Hparse)).
  - exact (Hshape _ _ _ _ _ (run_postPut "PUT" url data headers urlObj Hparse)).
  - exact (Hshape _ _ _ _ _ (run_requestJson url data headers urlObj Hparse)).
  - exact (Hshape _ _ _ _ _ (run_requestForm url formData headers urlObj Hparse)).
Qed.

(** ** Further lemmas on the body encoder *)

Lemma count_char_append (c : ascii) (s1 s2 : string) :
  count_char c (s1 +:+ s2) = (count_char c s1 + count_char c s2)%nat.
Proof.
  induction s1 as [|c' s1 IH]; [reflexivity|].
  simpl. destruct (Ascii.eqb c c'); rewrite IH; reflexivity.
Qed.

Lemma encodeURIComponent_cons (c : ascii) (s : string) :
  Js.encodeURIComponent (String c s)
  = Js.encodeURIComponent (String c EmptyString) +:+ Js.encodeURIComponent s.
Proof. simpl. destruct (Js.uri_unreserved c); reflexivity. Qed.

Lemma encoded_char_has_no_separator (c : ascii) :
  count_char "&" (Js.encodeURIComponent (String c EmptyString)) = O
  /\ count_char "=" (Js.encodeURIComponent (String c EmptyString)) = O.
Proof. destruct c as [[] [] [] [] [] [] [] []]; vm_compute; split; reflexivity. Qed.

(** [encodeURIComponent] leaves no [&] and no [=] in a text. *)
Lemma encodeURIComponent_has_no_separator (s : string) :
  count_char "&" (Js.encodeURIComponent s) = O
  /\ count_char "=" (Js.encodeURIComponent s) = O.
Proof.
  induction s as [|c s [IHamp IHeq]]; [split; reflexivity|].
  rewrite encodeURIComponent_cons, !count_char_append, IHamp, IHeq.
  destruct (encoded_char_has_no_separator c) as [-> ->]. split; reflexivity.
Qed.

Lemma count_char_join (c : ascii) (parts : list string) :
  count_char c (Js.join "&" parts)
  = (list_sum (map (count_char c) parts)
     + if Ascii.eqb c "&" then pred (length parts) else 0)%nat.
Proof.
  unfold Js.join. induction parts as [|part [|next rest] IH].
  - simpl. destruct (Ascii.eqb c "&"); reflexivity.
  - simpl. destruct (Ascii.eqb c "&"); lia.
  - change (String.concat "&" (part :: next :: rest))
      with (part +:+ "&" +:+ String.concat "&" (next :: rest)).
    rewrite !count_char_append, IH. simpl.
    destruct (Ascii.eqb c "&"); lia.
Qed.

Lemma form_pair_separators (name : string) (value : Js.Value) :
  count_char "&" (Js.encodeURIComponent name +:+ "="
                    +:+ Js.encodeURIComponent (ToString value)) = O
  /\ count_char "=" (Js.encodeURIComponent name +:+ "="
                       +:+ Js.encodeURIComponent (ToString value)) = 1%nat.
Proof.
  rewrite !count_char_append.
  destruct (encodeURIComponent_has_no_separator name) as [-> ->].
  destruct (encodeURIComponent_has_no_separator (ToString value)) as [-> ->].
  split; reflexivity.
Qed.

Lemma form_text_separators (formData : list (string * Js.Value)) :
  count_char "&" (form_text formData) = pred (length formData)
  /\ count_char "=" (form_text formData) = length formData.
Proof.
  unfold form_text. rewrite !count_char_join, !length_map. simpl.
  assert (Hsums : list_sum
                    (map (count_char "&")
                       (map (fun '(name, value) =>
                               Js.encodeURIComponent name +:+ "="
                                 +:+ Js.encodeURIComponent (ToString value))
                          formData)) = O
                  /\ list_sum
                       (map (count_char "=")
                          (map (fun '(name, value) =>
                                  Js.encodeURIComponent name +:+ "="
                                    +:+ Js.encodeURIComponent (ToString value))
                             formData)) = length formData).
  { induction formData as [|[name value] rest [IHamp IHeq]]; [split; reflexivity|].
    simpl map. simpl list_sum. simpl length.
    destruct (form_pair_separators name value) as [-> ->].
    rewrite IHamp, IHeq. split; reflexivity. }
  destruct Hsums as [-> ->]. split; lia.
Qed.

Lemma filter_write_encoded_log (options : RequestOptions) (data : Js.Value)
    (contentType : string) :
  List.filter is_write (encoded_log options data contentType) = wrote data.
Proof.
  unfold encoded_log. simpl.
  rewrite !List.filter_app.
  destruct (armed_cases options) as [->|[n ->]];
    destruct (wrote_cases data) as [->| ->]; reflexivity.
Qed.

Lemma wrote_text (s : string) :
  wrote (Js.String_ s) = if String.eqb s "" then [] else [write (Js.String_ s)].
Proof. unfold wrote. simpl. destruct (String.eqb s ""); reflexivity. Qed.

(** ** Further properties of the body encoder *)

(** X5. [requestJson] serializes whatever it is given, strings and
    Buffers included, and sends the text as
    [application/json;charset=utf-8] when the caller set no
    [Content-Type].  When [JSON.stringify] returns [undefined] the
    request still carries that content type, with [Content-Length: 0]
    and no body. *)
Theorem requestJson_always_serializes (url : string) (data : Js.Value)
    (headers : Headers) (urlObj : URL) :
  parseURL url = Some urlObj ->
  headers !! "Content-Type" = None ->
  encodes_as (requestJson url data headers)
    (match JSON_stringify data with
     | Some text => Js.utf8 text
     | None => []
     end)
    (Some "application/json;charset=utf-8")
  /\ (JSON_stringify data = None ->
      sent_header (requestJson url data headers) "Content-Length" = Some "0"
      /\ existsb is_write (snd (run (requestJson url data headers))) = false).
Proof.
  intros Hparse Hnone.
  pose proof (run_requestJson url data headers urlObj Hparse) as Hrun.
  split.
  - pose proof (encodes_as_log _ _ _ _ Hrun Hnone) as Henc.
    destruct (JSON_stringify data); exact Henc.
  - intros Hundefined. rewrite Hundefined in Hrun. split.
    + rewrite (encoded_sent_header _ _ _ _ _ Hrun).
      apply encoded_headers_content_length.
    + rewrite Hrun. unfold encoded_log.
      destruct (armed_cases (descriptor urlObj headers "POST")) as [->|[n ->]];
        reflexivity.
Qed.

(** X6. [requestPost] and [requestPut] hand a Buffer or a non-empty
    string to [req.write] as it is, in one call; a Buffer is written even
    when it is empty. *)
Theorem payload_written_as_given (url : string) (headers : Headers) (urlObj : URL) :
  parseURL url = Some urlObj ->
  let given (op : Js.Value -> M unit) : Prop :=
    (forall b, List.filter is_write (snd (run (op (Js.Buf b)))) = [write (Js.Buf b)])
    /\ (forall s, s <> "" ->
          List.filter is_write (snd (run (op (Js.String_ s))))
          = [write (Js.String_ s)]) in
  given (fun data => requestPost url data headers)
  /\ given (fun data => requestPut url data headers).
Proof.
  intros Hparse given.
  assert (Hverb : forall verb, given (fun data => postPut verb url data headers)).
  { intros verb. subst given. simpl. split.
    - intros b. rewrite (run_postPut verb url (Js.Buf b) headers urlObj Hparse).
      cbn [fst snd postPut_choice]. rewrite filter_write_encoded_log.
      reflexivity.
    - intros s Hne.
      rewrite (run_postPut verb url (Js.String_ s) headers urlObj Hparse).
      cbn [fst snd postPut_choice]. rewrite filter_write_encoded_log, wrote_text.
      destruct (String.eqb_spec s ""); [contradiction|reflexivity]. }
  split; apply Hverb.
Qed.

(** X7. [sendPost] looks the content type up under the exact name
    [Content-Type]: an entry the caller wrote as [content-type] does not
    count as one, so the default is added and both entries are sent. *)
Theorem header_names_case_sensitive (options : RequestOptions) (data : Js.Value)
    (contentType value : string) :
  contentType <> "" ->
  headers options !! "Content-Type" = None ->
  headers options !! "content-type" = Some value ->
  sent_header (sendPost options data contentType) "Content-Type" = Some contentType
  /\ sent_header (sendPost options data contentType) "content-type" = Some value.
Proof.
  intros Hne Hnone Hlower.
  pose proof (run_sendPost options data contentType) as Hrun.
  rewrite !(encoded_sent_header _ _ _ _ _ Hrun).
  rewrite encoded_headers_default by exact Hnone.
  rewrite encoded_headers_frame by discriminate.
  destruct (String.eqb_spec contentType ""); [contradiction|].
  split; [reflexivity|exact Hlower].
Qed.

(** X8. The encoding operations send every header of the caller other
    than [Content-Length] and [Content-Type] unchanged, whatever the
    map holds; the [Request-Timeout] entry is not taken out and goes to
    the transport with the rest. *)
Theorem headers_forwarded (url : string) (data : Js.Value)
    (formData : list (string * Js.Value)) (headers : Headers) (urlObj : URL) :
  parseURL url = Some urlObj ->
  let forwarded (op : M unit) : Prop :=
    (forall name, name <> "Content-Length" -> name <> "Content-Type" ->
       sent_header op name = headers !! name)
    /\ sent_header op "Request-Timeout" = headers !! "Request-Timeout" in
  forwarded (requestPost url data headers)
  /\ forwarded (requestPut url data headers)
  /\ forwarded (requestJson url data headers)
  /\ forwarded (requestForm url formData headers).
Proof.
  intros Hparse forwarded.
  assert (Hencoded : forall op verb payload contentType,
             run op = (Normal tt,
                       encoded_log (descriptor urlObj headers verb)
                         payload contentType) ->
             forwarded op).
  { intros op verb payload contentType Hrun.
    assert (Hframe : forall name,
               name <> "Content-Length" -> name <> "Content-Type" ->
               sent_header op name = headers !! name).
    { intros name Hlen Htype. rewrite (encoded_sent_header _ _ _ _ _ Hrun).
      simpl. apply encoded_headers_frame; assumption. }
    split; [exact Hframe|]. apply Hframe; discriminate. }
  split; [|split; [|split]].
  - exact (Hencoded _ _ _ _ (run_postPut "POST" url data headers urlObj Hparse)).
  - exact (Hencoded _ _ _ _ (run_postPut "PUT" url data headers urlObj Hparse)).
  - exact (Hencoded _ _ _ _ (run_requestJson url data headers urlObj Hparse)).
  - exact (Hencoded _ _ _ _ (run_requestForm url formData headers urlObj Hparse)).
Qed.

(** X9. The [Content-Length] an encoding operation sends reads back,
    with [parseInt], as the number of body bytes it writes. *)
Theorem content_length_reads_back (url : string) (data : Js.Value)
    (formData : list (string * Js.Value)) (headers : Headers) (urlObj : URL) :
  parseURL url = Some urlObj ->
  let readable (op : M unit) : Prop :=
    exists value,
      sent_header op "Content-Length" = Some value
      /\ Js.parseInt value = Js.Num (Z.of_nat (List.length (sent_bytes op))) in
  readable (requestPost url data headers)
  /\ readable (requestPut url data headers)
  /\ readable (requestJson url data headers)
  /\ readable (requestForm url formData headers).
Proof.
  intros Hparse readable.
  assert (Hencoded : forall op options payload contentType,
             run op = (Normal tt, encoded_log options payload contentType) ->
             readable op).
  { intros op options payload contentType Hrun. subst readable. simpl.
    rewrite (encoded_sent_bytes _ _ _ _ Hrun), (encoded_sent_header _ _ _ _ _ Hrun).
    rewrite encoded_headers_content_length, content_length_payload.
    eexists. split; [reflexivity|]. apply parseInt_toString. }
  split; [|split; [|split]].
  - exact (Hencoded _ _ _ _ (run_postPut "POST" url data headers urlObj Hparse)).
  - exact (Hencoded _ _ _ _ (run_postPut "PUT" url data headers urlObj Hparse)).
  - exact (Hencoded _ _ _ _ (run_requestJson url data headers urlObj Hparse)).
  - exact (Hencoded _ _ _ _ (run_requestForm url formData headers urlObj Hparse)).
Qed.

(** X10. In the text [requestForm] sends, [&] and [=] occur only as
    separators: one [=] for each pair and one [&] between two pairs,
    whatever characters the keys and values hold.  A body is written
    exactly when the form has a key. *)
Theorem form_separators (url : string) (formData : list (string * Js.Value))
    (headers : Headers) (urlObj : URL) :
  parseURL url = Some urlObj ->
  NoDup (Object_keys formData) ->
  exists text,
    sent_bytes (requestForm url formData headers) = Js.utf8 text
    /\ count_char "&" text = pred (length formData)
    /\ count_char "=" text = length formData
    /\ existsb is_write (snd (run (requestForm url formData headers)))
       = negb (Nat.eqb (length formData) 0).
Proof.
  intros Hparse Hnodup.
  pose proof (run_requestForm url formData headers urlObj Hparse) as Hrun.
  rewrite form_params_text in Hrun by exact Hnodup.
  destruct (form_text_separators formData) as [Hamp Heq].
  exists (form_text formData).
  split; [exact (encoded_sent_bytes _ _ _ _ Hrun)|].
  split; [exact Hamp|]. split; [exact Heq|].
  rewrite Hrun. unfold encoded_log. rewrite wrote_text.
  destruct (armed_cases (descriptor urlObj headers "POST")) as [->|[n ->]];
    destruct (String.eqb_spec (form_text formData) "") as [Hempty|Hfull];
    destruct formData as [|pair rest]; try reflexivity; exfalso.
  - rewrite Hempty in Heq. discriminate Heq.
  - apply Hfull. reflexivity.
  - rewrite Hempty in Heq. discriminate Heq.
  - apply Hfull. reflexivity.
Qed.


(** ** Further lemmas on the promise *)

Lemma on_events_app (st : State) (evs later : list Event) :
  on_events st (evs ++ later) = on_events (on_events st evs) later.
Proof. unfold on_events. apply fold_left_app. Qed.

(** Chunks are pushed in the order they arrive and change nothing else. *)
Lemma data_events (chunks : list Js.Buffer) (st : State) (i : nat)
    (res : IncomingMessage) (pushed : list Js.Buffer) :
  incoming st !! i = Some (res, pushed) ->
  on_events st (map (res_data i) chunks)
  = mkState (promise st) (<[i := (res, pushed ++ chunks)]> (incoming st))
            (req st) (log st).
Proof.
  revert st pushed. induction chunks as [|chunk chunks IH]; intros st pushed Hlookup.
  - simpl. rewrite app_nil_r, list_insert_id by exact Hlookup.
    destruct st; reflexivity.
  - cbn [map on_events fold_left]. fold (on_events (on_event st (res_data i chunk))
                                          (map (res_data i) chunks)).
    assert (Hstep : on_event st (res_data i chunk)
                    = mkState (promise st)
                        (<[i := (res, pushed ++ [chunk])]> (incoming st))
                        (req st) (log st)).
    { unfold on_event. rewrite Hlookup. reflexivity. }
    rewrite Hstep.
    rewrite (IH _ (pushed ++ [chunk])).
    + simpl. rewrite list_insert_insert_eq, <- app_assoc. reflexivity.
    + simpl. apply list_lookup_insert_eq. eapply lookup_lt_Some. exact Hlookup.
Qed.

Lemma log_step (st : State) (ev : Event) :
  log (on_event st ev)
  = log st ++ match ev with req_timeout => [destroy] | _ => [] end.
Proof.
  destruct ev as [err| |res|i chunk|i err|i]; simpl;
    unfold reject, resolve, settle; simpl;
    repeat case_match; simpl; rewrite ?app_nil_r; reflexivity.
Qed.

Lemma req_step (st : State) (ev : Event) : req (on_event st ev) = req st.
Proof.
  destruct ev as [err| |res|i chunk|i err|i]; simpl;
    unfold reject, resolve, settle; simpl; repeat case_match; reflexivity.
Qed.

Lemma unresolved_without_end (st : State) (ev : Event) :
  unresolved st -> ends_response ev = false -> unresolved (on_event st ev).
Proof.
  intros Hun Hev. destruct ev as [err| |res|i chunk|i err|i]; simpl;
    try discriminate Hev; try exact Hun.
  - apply unresolved_settle_rejected. exact Hun.
  - apply unresolved_settle_rejected. exact Hun.
  - destruct (incoming st !! i) as [[res chunks]|]; exact Hun.
  - apply unresolved_settle_rejected. exact Hun.
Qed.

Lemma built_from_more (req : ClientRequest) (evs later : list Event)
    (result : ClientRequestResponse) :
  built_from req evs result -> built_from req (evs ++ later) result.
Proof.
  intros (res & contentType & bytes & body & Hin & Hrest).
  exists res, contentType, bytes, body. split; [|exact Hrest].
  apply in_or_app. left. exact Hin.
Qed.

Lemma results_built_settle_rejected (request : ClientRequest)
    (seen : list Event) (st : State) (e : JsError) :
  results_built request seen st ->
  results_built request seen (settle (Rejected e) st).
Proof.
  intros (Hreq & Hall & Hres). unfold results_built, settle.
  destruct (promise st) eqn:Hpromise; [rewrite Hpromise; auto|].
  simpl. split; [exact Hreq|]. split; [exact Hall|]. discriminate.
Qed.

Lemma results_built_more (request : ClientRequest) (seen later : list Event)
    (st : State) :
  results_built request seen st -> results_built request (seen ++ later) st.
Proof.
  intros (Hreq & Hall & Hres). split; [exact Hreq|]. split.
  - eapply Forall_impl; [exact Hall|]. intros entry Hin.
    apply in_or_app. left. exact Hin.
  - intros result Hpromise. apply built_from_more. auto.
Qed.

Lemma results_built_step (request : ClientRequest) (seen : list Event)
    (st : State) (ev : Event) :
  results_built request seen st ->
  results_built request (seen ++ [ev]) (on_event st ev).
Proof.
  intros Hinv. pose proof (results_built_more request seen [ev] st Hinv) as Hmore.
  pose proof Hmore as (Hreq & Hall & Hres).
  destruct ev as [err| |res|i chunk|i err|i]; simpl.
  - apply results_built_settle_rejected. repeat split; assumption.
  - apply results_built_settle_rejected. repeat split; assumption.
  - split; [exact Hreq|]. split; [|exact Hres]. simpl.
    apply Forall_app. split; [exact Hall|]. constructor; [|constructor].
    simpl. apply in_or_app. right. left. reflexivity.
  - destruct (incoming st !! i) as [[res chunks]|] eqn:Hlookup;
      [|repeat split; assumption].
    split; [exact Hreq|]. split; [|exact Hres]. simpl.
    apply Forall_insert; [exact Hall|].
    exact (Forall_lookup_1 _ _ _ _ Hall Hlookup).
  - apply results_built_settle_rejected. repeat split; assumption.
  - destruct (incoming st !! i) as [[res chunks]|] eqn:Hlookup;
      [|repeat split; assumption].
    pose proof (Forall_lookup_1 _ _ _ _ Hall Hlookup) as Hdelivered.
    simpl in Hdelivered.
    destruct (res_headers res !! "content-type") as [contentType|] eqn:Htype;
      [|apply results_built_settle_rejected; repeat split; assumption].
    destruct (String.eqb_spec contentType "") as [->|Hne]; simpl.
    { apply results_built_settle_rejected. repeat split; assumption. }
    replace (negb (negb (String.eqb contentType ""))) with false
      by (destruct (String.eqb_spec contentType ""); [contradiction|reflexivity]).
    destruct (parseRequestBody (concat chunks) contentType) as [body|] eqn:Hbody;
      [|repeat split; assumption].
    unfold resolve, settle.
    destruct (promise st) eqn:Hpromise; [exact Hmore|].
    split; [exact Hreq|]. split; [exact Hall|]. simpl.
    intros result Hresult. inversion Hresult; subst result.
    exists res, contentType, (concat chunks), body.
    rewrite <- Hreq. repeat split; assumption.
Qed.

Lemma results_built_events (request : ClientRequest) (evs seen : list Event)
    (st : State) :
  results_built request seen st ->
  results_built request (seen ++ evs) (on_events st evs).
Proof.
  revert seen st. induction evs as [|ev evs IH]; intros seen st Hinv.
  - rewrite app_nil_r. exact Hinv.
  - change (seen ++ ev :: evs) with (seen ++ [ev] ++ evs).
    rewrite app_assoc. simpl. apply IH. apply results_built_step. exact Hinv.
Qed.

(** ** Further properties of the dispatcher *)

(** X12. The promise settles once: whatever it has been resolved or
    rejected with after some events, it still holds after any further
    events. *)
Theorem promise_settles_once (st : State) (evs later : list Event) (s : Settled) :
  promise (on_events st evs) = Some s ->
  promise (on_events st (evs ++ later)) = Some s.
Proof.
  intros Hsettled. rewrite on_events_app.
  apply settled_stays_events. exact Hsettled.
Qed.

(** X13. A response that arrives whole on a pending promise, with a
    non-empty content type that the parser accepts, resolves it.  The
    body handed to the parser is the chunks joined in the order they
    arrived; the result carries the parsed body, the headers of the
    response, the status code and message, 0 and the empty string when
    the transport left them undefined, and the host, method, path and
    protocol of the request object. *)
Theorem response_resolves (st : State) (res : IncomingMessage)
    (contentType : string) (chunks : list Js.Buffer) (body : Js.Value) :
  promise st = None ->
  res_headers res !! "content-type" = Some contentType ->
  contentType <> "" ->
  parseRequestBody (concat chunks) contentType = Some body ->
  promise (on_events st (whole_response (length (incoming st)) res chunks))
  = Some (Resolved
            {| response := body;
               host := req_host (req st);
               method_ := req_method (req st);
               path_ := req_path (req st);
               protocol_ := req_protocol (req st);
               headers_ := res_headers res;
               statusCode := match res_statusCode res with
                             | Some code => code
                             | None => 0
                             end;
               statusMessage := match res_statusMessage res with
                                | Some message => message
                                | None => ""
                                end |}).
Proof.
  intros Hpending Htype Hne Hbody. unfold whole_response.
  change (on_response res :: ?l) with ([on_response res] ++ l).
  rewrite !on_events_app.
  set (st1 := on_events st [on_response res]).
  assert (Hlookup : incoming st1 !! length (incoming st) = Some (res, [])).
  { subst st1. simpl. apply lookup_snoc_Some. right. split; reflexivity. }
  rewrite (data_events chunks st1 _ res [] Hlookup). simpl.
  rewrite list_lookup_insert_eq by (eapply lookup_lt_Some; exact Hlookup).
  rewrite Htype.
  destruct (String.eqb_spec contentType "") as [|_]; [contradiction|]. simpl.
  rewrite Hbody. unfold resolve, settle. simpl. rewrite Hpending. reflexivity.
Qed.

(** X14. A [content-type] header that is present but empty counts as
    missing: the end of such a response rejects a pending promise with
    ["Content-Type header is missing"], for good. *)
Theorem empty_content_type_rejects (st : State) (i : nat) (res : IncomingMessage)
    (chunks : list Js.Buffer) (later : list Event) :
  promise st = None ->
  incoming st !! i = Some (res, chunks) ->
  res_headers res !! "content-type" = Some "" ->
  promise (on_events (on_event st (res_end i)) later)
  = Some (Rejected (Error_ "Content-Type header is missing")).
Proof.
  intros Hpending Hlookup Hempty. apply settled_stays_events.
  unfold on_event. rewrite Hlookup, Hempty. simpl.
  unfold reject. apply settle_pending. exact Hpending.
Qed.

(** X15. An ["error"] event, of the request or of a response, rejects
    a pending promise for good with the very object it carries, and
    makes no call on the transport: the request is not destroyed. *)
Theorem error_events_reject (st : State) (i : nat) (err : string)
    (later : list Event) :
  promise st = None ->
  promise (on_events (on_event st (req_error err)) later)
  = Some (Rejected (Emitted err))
  /\ promise (on_events (on_event st (res_error i err)) later)
     = Some (Rejected (Emitted err))
  /\ log (on_event st (req_error err)) = log st
  /\ log (on_event st (res_error i err)) = log st.
Proof.
  intros Hpending. split; [|split; [|split]].
  - apply settled_stays_events. simpl. unfold reject.
    apply settle_pending. exact Hpending.
  - apply settled_stays_events. simpl. unfold reject.
    apply settle_pending. exact Hpending.
  - simpl. unfold reject. apply settle_log.
  - simpl. unfold reject. apply settle_log.
Qed.

(** X16. After the synchronous part the only call made on the
    transport is [req.destroy()], once for each time-out event, also
    when the promise is already settled; no other event causes a call. *)
Theorem destroy_only_on_timeout (st : State) (evs : list Event) :
  log (on_events st evs) = log st ++ repeat destroy (timeouts evs).
Proof.
  revert st. induction evs as [|ev evs IH]; intros st.
  - simpl. rewrite app_nil_r. reflexivity.
  - cbn [on_events fold_left]. fold (on_events (on_event st ev) evs).
    rewrite IH, log_step.
    destruct ev; simpl; rewrite <- ?app_assoc, ?app_nil_r; reflexivity.
Qed.

(** X17. No result is delivered before a response has ended: events
    among which there is no ["end"] of a response never resolve the
    promise of an operation. *)
Theorem no_result_before_end (request : ClientRequest) (op : M unit)
    (evs : list Event) :
  forallb (fun ev => negb (ends_response ev)) evs = true ->
  forall result,
    promise (on_events (launch request op) evs) <> Some (Resolved result).
Proof.
  intros Hevs.
  assert (Hun : forall st, unresolved st -> unresolved (on_events st evs)).
  { induction evs as [|ev evs IH]; intros st Hst; [exact Hst|].
    simpl in Hevs. apply andb_prop in Hevs as [Hev Hevs].
    simpl. apply IH; [exact Hevs|].
    apply unresolved_without_end; [exact Hst|].
    destruct (ends_response ev); [discriminate Hev|reflexivity]. }
  apply Hun. apply unresolved_launch.
Qed.

(** X18. Every result an operation delivers is built from a response
    that the transport handed over during the events: that response has
    a non-empty content type, the body is what the parser returned
    under that content type, and headers, status and request properties
    are copied as [reqCallback] copies them. *)
Theorem result_built_from_response (request : ClientRequest) (op : M unit)
    (evs : list Event) (result : ClientRequestResponse) :
  promise (on_events (launch request op) evs) = Some (Resolved result) ->
  exists res contentType bytes body,
    In (on_response res) evs
    /\ res_headers res !! "content-type" = Some contentType
    /\ contentType <> ""
    /\ parseRequestBody bytes contentType = Some body
    /\ result = {| response := body;
                   host := req_host request;
                   method_ := req_method request;
                   path_ := req_path request;
                   protocol_ := req_protocol request;
                   headers_ := res_headers res;
                   statusCode := default 0 (res_statusCode res);
                   statusMessage := default "" (res_statusMessage res) |}.
Proof.
  intros Hresolved.
  assert (Hstart : results_built request [] (launch request op)).
  { unfold launch. destruct (run op) as [[[]|e] log];
      (split; [reflexivity|]; split; [constructor|]; simpl; discriminate). }
  destruct (results_built_events request evs [] _ Hstart) as (_ & _ & Hbuilt).
  exact (Hbuilt result Hresolved).
Qed.

End ClientRequest.

(** ** The theorems at concrete inputs, on the reference platform *)

Lemma request_timeout_witness :
  let options :=
    {| hostname := "localhost"; path := "/slow"; port := Js.Num 8080;
       protocol := "http:"; headers := {["Request-Timeout" := "5"]};
       method := "GET" |} in
  let st := mkState None [] localhost [] in
  performed Demo.throws (snd (run (sendRequest options Js.Null)))
  = ([request http options; setTimeout (Js.Num 5000); end_], None)
  /\ promise (on_event Demo.parseRequestBody st req_timeout)
     = Some (Rejected (Error_ "Request timed out"))
  /\ log (on_event Demo.parseRequestBody st req_timeout) = [destroy].
Proof.
  intros options st.
  destruct (request_timeout Demo.parseRequestBody Demo.throws options Js.Null
              "5" 5 st)
    as (_ & Hcalls & Hlog & Hrejected & _);
    [reflexivity|reflexivity|lia|vm_compute; discriminate| |reflexivity..|].
  { intros msecs Hsign. simpl. destruct (Z.ltb_spec msecs 0); [lia|reflexivity]. }
  split; [exact Hcalls|]. split; [exact (Hrejected [])|exact Hlog].
Defined.

(** C1 as stated fails: [parseInt] reads the value ["-1"] as the integer
    -1, and no time-out of -1 seconds is armed.  The call
    [req.setTimeout(-1000)] throws, the body is not written, the request
    is not ended, and the operation fails at once with that exception,
    which is not the time-out error. *)
Lemma negative_timeout_throws :
  let options :=
    {| hostname := "localhost"; path := "/slow"; port := Js.Num 8080;
       protocol := "http:"; headers := {["Request-Timeout" := "-1"]};
       method := "POST" |} in
  headers options !! "Request-Timeout" = Some "-1"
  /\ Js.parseInt "-1" = Js.Num (-1)
  /\ performed Demo.throws (snd (run (sendRequest options (Js.String_ "hello"))))
     = ([request http options; setTimeout (Js.Num (-1000))],
        Some (Raised "RangeError"))
  /\ promise (launch_on Demo.throws localhost
                (sendRequest options (Js.String_ "hello")))
     = Some (Rejected (Raised "RangeError"))
  /\ kind_of (Raised "RangeError") <> KRequestTimedOut.
Proof.
  intros options. repeat split; try reflexivity. discriminate.
Qed.

Lemma missing_content_type_witness :
  let res := mkIncomingMessage ∅ (Some 200) (Some "OK") in
  let st := mkState None [(res, [foo])] localhost [] in
  promise st = None
  /\ promise (on_event Demo.parseRequestBody st (res_end 0))
     = Some (Rejected (Error_ "Content-Type header is missing")).
Proof.
  intros res st. split; [reflexivity|].
  destruct (missing_content_type Demo.parseRequestBody st 0 ∅ (Some 200)
              (Some "OK") [foo]) as (Hrejected & _); [reflexivity..|].
  exact (proj1 (Hrejected [])).
Defined.

Lemma postPut_encoding_by_shape_witness :
  Demo.parseURL "https://httpbin.org/post?foo=bar"
  = Some (mkURL "https:" "httpbin.org" "" "/post" "?foo=bar")
  /\ encodes_as
       (requestPost Demo.parseURL Demo.JSON_stringify Demo.Object_toString
          "https://httpbin.org/post?foo=bar" (Js.Buf foo) ∅)
       foo (Some "application/octet-stream").
Proof.
  split; [reflexivity|].
  refine (proj1 (postPut_encoding_by_shape Demo.parseURL Demo.JSON_stringify
                   Demo.Object_toString "https://httpbin.org/post?foo=bar"
                   (Js.Buf foo) ∅ _ _)); reflexivity.
Defined.

(** C3 as stated fails: the caller set a [Content-Type] entry, to the
    empty string, and the default of the mode is applied all the same. *)
Lemma default_applied_over_empty_content_type :
  let headers : Headers := {["Content-Type" := ""]} in
  let op :=
    requestPut Demo.parseURL Demo.JSON_stringify Demo.Object_toString
      "http://localhost:8080/upload" (Js.Buf foo) headers in
  headers !! "Content-Type" = Some ""
  /\ completes op
  /\ sent_header op "Content-Type" = Some "application/octet-stream".
Proof.
  intros headers op. split; [reflexivity|]. split; reflexivity.
Qed.

Lemma content_length_is_payload_length_witness :
  let op :=
    requestPost Demo.parseURL Demo.JSON_stringify Demo.Object_toString
      "https://httpbin.org/post?foo=bar" (Js.String_ "Hello, World!")
      {["Content-Length" := "99"]} in
  sent_bytes op = Js.utf8 "Hello, World!"
  /\ sent_header op "Content-Length"
     = Some (Js.Number_toString (Js.Num (Z.of_nat (List.length (sent_bytes op))))).
Proof.
  intros op. split; [reflexivity|].
  refine (proj1 (proj2 (proj1
            (content_length_is_payload_length Demo.parseURL
               Demo.JSON_stringify Demo.Object_toString
               "https://httpbin.org/post?foo=bar" (Js.String_ "Hello, World!")
               [] {["Content-Length" := "99"]} _ _)))).
  reflexivity.
Defined.

(** C5 as stated fails: a [Content-Type] entry whose value is the empty
    string is in the caller's map, and [requestPost] replaces it by the
    default of the mode. *)
Lemma empty_content_type_overwritten :
  let headers : Headers := {["Content-Type" := ""]} in
  let op :=
    requestPost Demo.parseURL Demo.JSON_stringify Demo.Object_toString
      "http://localhost:8080/upload" (Js.String_ "hello") headers in
  headers !! "Content-Type" = Some ""
  /\ completes op
  /\ sent_header op "Content-Type" = Some "text/plain;charset=utf-8"
  /\ sent_header op "Content-Type" <> headers !! "Content-Type".
Proof.
  intros headers op. split; [reflexivity|]. split; [reflexivity|].
  split; [reflexivity|]. discriminate.
Qed.

Lemma caller_content_type_kept_witness :
  let headers : Headers := {["Content-Type" := "text/plain"]} in
  let op :=
    requestPost Demo.parseURL Demo.JSON_stringify Demo.Object_toString
      "https://httpbin.org/post?foo=bar" (Js.String_ "Hello, World!") headers in
  headers !! "Content-Type" = Some "text/plain"
  /\ sent_header op "Content-Type" = Some "text/plain".
Proof.
  intros headers op. split; [reflexivity|].
  refine (proj1 (proj2 (proj1
            (caller_content_type_kept Demo.parseURL Demo.JSON_stringify
               Demo.Object_toString "https://httpbin.org/post?foo=bar"
               (Js.String_ "Hello, World!") [] headers _ "text/plain"
               _ _ _)))); [reflexivity..|discriminate].
Defined.

(** C6 as stated fails: the URL gives the port 443 explicitly, and the
    port of the request options is 80. *)
Lemma written_default_port_lost :
  Demo.written_port "wss://example.com:443/chat" = Some 443
  /\ Demo.parseURL "wss://example.com:443/chat"
     = Some (mkURL "wss:" "example.com" "" "/chat" "")
  /\ fst (run (makeReqOptions Demo.parseURL "wss://example.com:443/chat" ∅ "GET"))
     = Normal {| hostname := "example.com"; path := "/chat"; port := Js.Num 80;
                 protocol := "wss:"; headers := ∅; method := "GET" |}.
Proof. repeat split; reflexivity. Qed.

Lemma port_resolution_witness :
  exists options,
    run (makeReqOptions Demo.parseURL "http://localhost:8080/upload" ∅ "PUT")
    = (Normal options, [])
    /\ port options = Js.Num 8080.
Proof.
  destruct (port_resolution Demo.parseURL "http://localhost:8080/upload" ∅ "PUT"
              (mkURL "http:" "localhost" "8080" "/upload" ""))
    as (options & Hrun & Hport & _); [reflexivity|].
  exists options. split; [exact Hrun|]. apply Hport. reflexivity.
Defined.

Lemma invalid_url_fails_before_network_witness :
  Demo.parseURL "httpbin.org/get" = None
  /\ run (requestGet Demo.parseURL "httpbin.org/get" ∅) = (Throw InvalidUrl, []).
Proof.
  split; [reflexivity|].
  refine (proj1 (proj1 (proj2
            (invalid_url_fails_before_network Demo.parseURL
               Demo.JSON_stringify Demo.Object_toString "httpbin.org/get"
               Js.Null [] ∅ _)))).
  reflexivity.
Defined.

Lemma requestForm_payload_witness :
  let formData :=
    [("number", Js.Number_ (Js.Num 42)); ("text", Js.String_ "a b");
     ("list", Js.Array [Js.Number_ (Js.Num 1); Js.Number_ (Js.Num 2)])] in
  let op :=
    requestForm Demo.parseURL Demo.Object_toString
      "https://httpbin.org/post?foo=bar" formData
      {["Client" := "request-service"]} in
  NoDup (Object_keys formData)
  /\ sent_bytes op = Js.utf8 "number=42&text=a%20b&list=1%2C2"
  /\ sent_header op "Content-Type" = Some "application/x-www-form-urlencoded".
Proof.
  intros formData op.
  assert (Hkeys : NoDup (Object_keys formData)).
  { repeat constructor; rewrite ?list_elem_of_In; simpl; intuition discriminate. }
  split; [exact Hkeys|].
  destruct (requestForm_payload Demo.parseURL Demo.Object_toString
              "https://httpbin.org/post?foo=bar" formData
              {["Client" := "request-service"]}
              (mkURL "https:" "httpbin.org" "" "/post" "?foo=bar"))
    as ((_ & Hbytes & Htype) & _); [reflexivity|exact Hkeys|].
  split; [exact Hbytes|]. apply Htype. reflexivity.
Defined.

Lemma empty_string_sent_without_body_witness :
  let op :=
    requestPut Demo.parseURL Demo.JSON_stringify Demo.Object_toString
      "http://localhost:8080/upload" (Js.String_ "") ∅ in
  encodes_as op [] (Some "text/plain;charset=utf-8")
  /\ sent_header op "Content-Length" = Some "0".
Proof.
  intros op.
  destruct (empty_string_sent_without_body Demo.parseURL
              Demo.JSON_stringify Demo.Object_toString
              "http://localhost:8080/upload" ∅
              (mkURL "http:" "localhost" "8080" "/upload" ""))
    as (_ & Hencodes & Hlength & _); [reflexivity..|].
  split; [exact Hencodes|exact Hlength].
Defined.

Lemma other_data_sent_as_text_witness :
  let data := Js.Rest (Js.Inexact "1e+21") in
  let op :=
    requestPost Demo.parseURL Demo.JSON_stringify Demo.Object_toString
      "http://localhost:8080/upload" data ∅ in
  Js.other_shape data = true
  /\ sent_bytes op = Js.utf8 "1e+21"
  /\ sent_header op "Content-Length" = Some "5"
  /\ sent_header op "Content-Type" = Some "text/plain;charset=utf-8".
Proof.
  intros data op. split; [reflexivity|].
  destruct (other_data_sent_as_text Demo.parseURL Demo.JSON_stringify
              Demo.Object_toString "http://localhost:8080/upload" data ∅
              (mkURL "http:" "localhost" "8080" "/upload" ""))
    as ((_ & _ & Hbytes & Hlength & Htype) & _); [reflexivity..|].
  split; [exact Hbytes|]. split; [exact Hlength|]. apply Htype. reflexivity.
Defined.


(** ** The requests of the test suite *)

Example test_requestForm :
  snd (run (requestForm Demo.parseURL Demo.Object_toString
              "https://httpbin.org/post?foo=bar"
              [("number", Js.Number_ (Js.Num 42)); ("text", Js.String_ "foo");
               ("list", Js.Array [Js.Number_ (Js.Num 1); Js.Number_ (Js.Num 2)])]
              {["Client" := "request-service"]}))
  = [request https
       {| hostname := "httpbin.org"; path := "/post?foo=bar";
          port := Js.Num 443; protocol := "https:";
          headers :=
            <["Content-Type" := "application/x-www-form-urlencoded"]>
              (<["Content-Length" := "29"]> {["Client" := "request-service"]});
          method := "POST" |};
     write (Js.String_ "number=42&text=foo&list=1%2C2");
     end_].
Proof. reflexivity. Qed.

Example test_requestPost_binary :
  snd (run (requestPost Demo.parseURL Demo.JSON_stringify Demo.Object_toString
              "https://httpbin.org/post?foo=bar" (Js.Buf foo) ∅))
  = [request https
       {| hostname := "httpbin.org"; path := "/post?foo=bar";
          port := Js.Num 443; protocol := "https:";
          headers :=
            <["Content-Type" := "application/octet-stream"]>
              (<["Content-Length" := "3"]> ∅);
          method := "POST" |};
     write (Js.Buf foo);
     end_].
Proof. reflexivity. Qed.

Example test_requestJson :
  sent_bytes
    (requestJson Demo.parseURL Demo.JSON_stringify
       "https://httpbin.org/post?foo=bar"
       (Js.Object [("number", Js.Number_ (Js.Num 42)); ("text", Js.String_ "foo");
                   ("list", Js.Array [Js.Number_ (Js.Num 1); Js.Number_ (Js.Num 2)]);
                   ("object", Js.Object [("bar", Js.String_ "baz")])])
       {["Client" := "request-service"]})
  = Js.utf8 ("{" +:+ Demo.quote "number" +:+ ":42," +:+ Demo.quote "text" +:+ ":"
             +:+ Demo.quote "foo" +:+ "," +:+ Demo.quote "list" +:+ ":[1,2],"
             +:+ Demo.quote "object" +:+ ":{" +:+ Demo.quote "bar" +:+ ":"
             +:+ Demo.quote "baz" +:+ "}}").
Proof. reflexivity. Qed.

Example test_response_decoded :
  promise
    (on_events Demo.parseRequestBody
       (launch localhost
          (requestPost Demo.parseURL Demo.JSON_stringify Demo.Object_toString
             "http://localhost:8080/upload" (Js.Buf foo) ∅))
       [on_response (mkIncomingMessage {["content-type" := "text/plain"]}
                       (Some 200) (Some "OK"));
        res_data 0 [Byte.x66]; res_data 0 [Byte.x6f; Byte.x6f]; res_end 0;
        req_timeout])
  = Some (Resolved
            {| response := Js.String_ "foo"; host := "localhost";
               method_ := "POST"; path_ := "/upload"; protocol_ := "http:";
               headers_ := {["content-type" := "text/plain"]};
               statusCode := 200; statusMessage := "OK" |}).
Proof. reflexivity. Qed.

(** ** The further properties at concrete inputs *)

Lemma requests_without_body_witness :
  let headers : Headers := {["Accept" := "application/json"]} in
  let op := requestGet Demo.parseURL "https://httpbin.org/get?foo=bar" headers in
  sent_bytes op = [] /\ forall name, sent_header op name = headers !! name.
Proof.
  intros headers op.
  destruct (requests_without_body Demo.parseURL
              "https://httpbin.org/get?foo=bar" headers
              (mkURL "https:" "httpbin.org" "" "/get" "?foo=bar"))
    as (_ & _ & _ & Hbytes & _ & Hheaders); [reflexivity|].
  split; [exact Hbytes|exact Hheaders].
Defined.

Lemma request_line_witness :
  transporter_used
    (snd (run (requestForm Demo.parseURL Demo.Object_toString
                 "https://httpbin.org/post?foo=bar" [] ∅)))
  = Some https.
Proof.
  destruct (request_line Demo.parseURL Demo.JSON_stringify Demo.Object_toString
              "https://httpbin.org/post?foo=bar" Js.Null [] ∅
              (mkURL "https:" "httpbin.org" "" "/post" "?foo=bar"))
    as (_ & _ & _ & _ & _ & Hform & _); [reflexivity|].
  exact Hform.
Defined.

Lemma timeout_not_armed_witness :
  existsb is_setTimeout
    (snd (run (requestGet Demo.parseURL "http://localhost:8080/slow"
                 {["Request-Timeout" := "soon"]})))
  = false.
Proof.
  destruct (timeout_not_armed Demo.parseURL Demo.JSON_stringify
              Demo.Object_toString "http://localhost:8080/slow" Js.Null []
              {["Request-Timeout" := "soon"]}
              (mkURL "http:" "localhost" "8080" "/slow" ""))
    as (_ & Hget & _); [reflexivity..|].
  exact Hget.
Defined.

Lemma call_order_witness :
  let op :=
    requestPut Demo.parseURL Demo.JSON_stringify Demo.Object_toString
      "http://localhost:8080/upload" (Js.Buf foo) {["Request-Timeout" := "-1"]} in
  exists transporter options timeout body,
    (length timeout <= 1)%nat /\ forallb is_setTimeout timeout = true
    /\ (length body <= 1)%nat /\ forallb is_write body = true
    /\ fst (performed Demo.throws (snd (run op)))
       `prefix_of` request transporter options :: timeout ++ body ++ [end_]
    /\ (snd (performed Demo.throws (snd (run op))) = None ->
        fst (performed Demo.throws (snd (run op)))
        = request transporter options :: timeout ++ body ++ [end_]).
Proof.
  intros op.
  destruct (call_order Demo.parseURL Demo.JSON_stringify Demo.Object_toString
              Demo.throws "http://localhost:8080/upload" (Js.Buf foo) []
              {["Request-Timeout" := "-1"]}
              (mkURL "http:" "localhost" "8080" "/upload" ""))
    as (_ & _ & _ & Hput & _); [reflexivity|].
  exact Hput.
Defined.

Lemma requestJson_always_serializes_witness :
  encodes_as
    (requestJson Demo.parseURL Demo.JSON_stringify
       "https://httpbin.org/post?foo=bar" (Js.String_ "foo") ∅)
    (Js.utf8 (Demo.quote "foo"))
    (Some "application/json;charset=utf-8").
Proof.
  refine (proj1 (requestJson_always_serializes Demo.parseURL Demo.JSON_stringify
                   "https://httpbin.org/post?foo=bar" (Js.String_ "foo") ∅
                   (mkURL "https:" "httpbin.org" "" "/post" "?foo=bar") _ _));
    reflexivity.
Defined.

Lemma payload_written_as_given_witness :
  List.filter is_write
    (snd (run (requestPost Demo.parseURL Demo.JSON_stringify Demo.Object_toString
                 "http://localhost:8080/upload" (Js.Buf []) ∅)))
  = [write (Js.Buf [])].
Proof.
  destruct (payload_written_as_given Demo.parseURL Demo.JSON_stringify
              Demo.Object_toString "http://localhost:8080/upload" ∅
              (mkURL "http:" "localhost" "8080" "/upload" ""))
    as ((Hbuffer & _) & _); [reflexivity|].
  exact (Hbuffer []).
Defined.

Lemma header_names_case_sensitive_witness :
  let options :=
    {| hostname := "localhost"; path := "/upload"; port := Js.Num 8080;
       protocol := "http:"; headers := {["content-type" := "text/csv"]};
       method := "POST" |} in
  sent_header (sendPost options (Js.String_ "a,b") "text/plain;charset=utf-8")
    "Content-Type" = Some "text/plain;charset=utf-8"
  /\ sent_header (sendPost options (Js.String_ "a,b") "text/plain;charset=utf-8")
       "content-type" = Some "text/csv".
Proof.
  intros options.
  apply (header_names_case_sensitive options (Js.String_ "a,b")
           "text/plain;charset=utf-8" "text/csv");
    [discriminate|reflexivity|reflexivity].
Defined.

Lemma headers_forwarded_witness :
  sent_header
    (requestPost Demo.parseURL Demo.JSON_stringify Demo.Object_toString
       "http://localhost:8080/upload" (Js.String_ "hello")
       {["Request-Timeout" := "5"]})
    "Request-Timeout"
  = Some "5".
Proof.
  destruct (headers_forwarded Demo.parseURL Demo.JSON_stringify
              Demo.Object_toString "http://localhost:8080/upload"
              (Js.String_ "hello") [] {["Request-Timeout" := "5"]}
              (mkURL "http:" "localhost" "8080" "/upload" ""))
    as ((_ & Htimeout) & _); [reflexivity|].
  exact Htimeout.
Defined.

Lemma content_length_reads_back_witness :
  let op :=
    requestPost Demo.parseURL Demo.JSON_stringify Demo.Object_toString
      "http://localhost:8080/upload" (Js.String_ "Hello, World!") ∅ in
  exists value,
    sent_header op "Content-Length" = Some value
    /\ Js.parseInt value = Js.Num (Z.of_nat (List.length (sent_bytes op))).
Proof.
  intros op.
  destruct (content_length_reads_back Demo.parseURL Demo.JSON_stringify
              Demo.Object_toString "http://localhost:8080/upload"
              (Js.String_ "Hello, World!") [] ∅
              (mkURL "http:" "localhost" "8080" "/upload" ""))
    as (Hpost & _); [reflexivity|].
  exact Hpost.
Defined.

Lemma form_separators_witness :
  let formData := [("a&b", Js.String_ "c=d"); ("e", Js.String_ "f&g=h")] in
  NoDup (Object_keys formData)
  /\ exists text,
       sent_bytes (requestForm Demo.parseURL Demo.Object_toString
                     "http://localhost:8080/upload" formData ∅)
       = Js.utf8 text
       /\ count_char "&" text = 1%nat /\ count_char "=" text = 2%nat.
Proof.
  intros formData.
  assert (Hkeys : NoDup (Object_keys formData)).
  { repeat constructor; rewrite ?list_elem_of_In; simpl; intuition discriminate. }
  split; [exact Hkeys|].
  destruct (form_separators Demo.parseURL Demo.Object_toString
              "http://localhost:8080/upload" formData ∅
              (mkURL "http:" "localhost" "8080" "/upload" ""))
    as (text & Hbytes & Hamp & Heq & _); [reflexivity|exact Hkeys|].
  exists text. split; [exact Hbytes|]. split; [exact Hamp|exact Heq].
Defined.


Lemma promise_settles_once_witness :
  let st := mkState None [] localhost [] in
  promise
    (on_events Demo.parseRequestBody st
       ([req_error "ECONNRESET"] ++ whole_response 0 text_response [foo]))
  = Some (Rejected (Emitted "ECONNRESET")).
Proof.
  intros st.
  apply (promise_settles_once Demo.parseRequestBody st [req_error "ECONNRESET"]).
  reflexivity.
Defined.

Lemma response_resolves_witness :
  let st := mkState None [] localhost [] in
  promise
    (on_events Demo.parseRequestBody st
       (whole_response 0 text_response [[Byte.x66]; [Byte.x6f; Byte.x6f]]))
  = Some (Resolved
            {| response := Js.String_ "foo"; host := "localhost";
               method_ := "POST"; path_ := "/upload"; protocol_ := "http:";
               headers_ := {["content-type" := "text/plain"]};
               statusCode := 0; statusMessage := "" |}).
Proof.
  intros st.
  apply (response_resolves Demo.parseRequestBody st text_response "text/plain"
           [[Byte.x66]; [Byte.x6f; Byte.x6f]] (Js.String_ "foo"));
    [reflexivity|reflexivity|discriminate|reflexivity].
Defined.

Lemma empty_content_type_rejects_witness :
  let res := mkIncomingMessage {["content-type" := ""]} (Some 200) (Some "OK") in
  let st := mkState None [(res, [foo])] localhost [] in
  promise (on_events Demo.parseRequestBody
             (on_event Demo.parseRequestBody st (res_end 0)) [])
  = Some (Rejected (Error_ "Content-Type header is missing")).
Proof.
  intros res st.
  apply (empty_content_type_rejects Demo.parseRequestBody st 0 res [foo] []);
    reflexivity.
Defined.

Lemma error_events_reject_witness :
  let st := mkState None [] localhost [] in
  promise (on_events Demo.parseRequestBody
             (on_event Demo.parseRequestBody st (req_error "ECONNREFUSED"))
             [req_timeout])
  = Some (Rejected (Emitted "ECONNREFUSED")).
Proof.
  intros st.
  refine (proj1 (error_events_reject Demo.parseRequestBody st 0 "ECONNREFUSED"
                   [req_timeout] _)).
  reflexivity.
Defined.

Lemma no_result_before_end_witness :
  promise
    (on_events Demo.parseRequestBody
       (launch localhost (requestGet Demo.parseURL "http://localhost:8080/slow" ∅))
       [on_response text_response; res_data 0 foo; req_timeout])
  <> Some (Resolved (result_of localhost text_response (Js.String_ "foo"))).
Proof.
  apply (no_result_before_end Demo.parseRequestBody localhost
           (requestGet Demo.parseURL "http://localhost:8080/slow" ∅)
           [on_response text_response; res_data 0 foo; req_timeout]).
  reflexivity.
Defined.

Lemma result_built_from_response_witness :
  let evs := whole_response 0 text_response [foo] in
  let op := requestGet Demo.parseURL "http://localhost:8080/upload" ∅ in
  exists res contentType bytes body,
    In (on_response res) evs
    /\ res_headers res !! "content-type" = Some contentType
    /\ contentType <> ""
    /\ Demo.parseRequestBody bytes contentType = Some body
    /\ result_of localhost text_response (Js.String_ "foo")
       = result_of localhost res body.
Proof.
  intros evs op.
  apply (result_built_from_response Demo.parseRequestBody localhost op evs
           (result_of localhost text_response (Js.String_ "foo"))).
  reflexivity.
Defined.
